(** * CRUD device driver: the request codec and the file layer

    A shallow embedding of [crud_file_io.c] (the file-to-object translation
    layer and the 64-bit request codec) and of [crud_client.c] (the client
    side of the network protocol), with the properties of the design
    document stated over it.

    Machine integers are [Z] with the wrap-around of the C type written
    out; the state the C code keeps in globals ([InitFlag],
    [crud_file_table], the socket) is passed explicitly. *)

From Stdlib Require Import ZArith List String Bool Lia.
From Stdlib Require Import Init.Byte.
Import ListNotations.

Local Open Scope Z_scope.

(** ** Fixed-width integers *)

Definition uint8 (z : Z) : Z := z mod 256.
Definition uint16 (z : Z) : Z := z mod 65536.
Definition uint32 (z : Z) : Z := z mod 4294967296.
Definition uint64 (z : Z) : Z := z mod 18446744073709551616.

(** Conversion to a signed type (two's complement). *)
Definition int16 (z : Z) : Z :=
  let u := uint16 z in if u <? 32768 then u else u - 65536.
Definition int32 (z : Z) : Z :=
  let u := uint32 z in if u <? 2147483648 then u else u - 4294967296.

(** ** The request codec *)

Module Codec.

(** [CrudRequest] and [CrudResponse] are [uint64_t]. *)
Definition CrudRequest := Z.
Definition CrudResponse := Z.

Record CRParsed := {
  oID : Z;      (* uint32_t, object identifier *)
  req : Z;      (* uint8_t, request type *)
  length : Z;   (* uint32_t, size of object *)
  flags : Z;    (* uint8_t *)
  res : Z       (* uint8_t, 0 if success, 1 if failure *)
}.

(** The arguments are converted to the parameter types on entry, as a C
    call does; the body then follows the source line by line. *)
Definition convert_to_CrudRequest (oID req length flags res : Z) : CrudRequest :=
  let oID := uint32 oID in
  let req := uint8 req in
  let length := uint32 length in
  let flags := uint8 flags in
  let res := uint8 res in
  let convertedValue := 0 in
  let bitWork := 0 in
  let bitWork := Z.shiftr (uint32 (Z.lnot bitWork)) 8 in
  let length := Z.land length bitWork in
  let req := uint8 (Z.land req 15) in
  let flags := uint8 (Z.land flags 7) in
  let res := uint8 (Z.land res 1) in
  let convertedValue := uint64 (Z.shiftl oID 32) in
  let convertedValue := Z.lor convertedValue (uint64 (Z.shiftl req 28)) in
  let convertedValue := Z.lor convertedValue (uint64 (Z.shiftl length 4)) in
  let convertedValue := Z.lor convertedValue (uint64 (Z.shiftl flags 1)) in
  let convertedValue := Z.lor convertedValue res in
  convertedValue.

Definition parse_CrudResponse (parseThis : CrudResponse) : CRParsed :=
  let parseThis := uint64 parseThis in
  let lengthBits := 0 in
  let lengthBits := Z.shiftr (uint32 (Z.lnot lengthBits)) 8 in
  {| oID := uint32 (Z.shiftr parseThis 32);
     req := uint8 (Z.land (Z.shiftr parseThis 28) 15);
     length := uint32 (Z.land (Z.shiftr parseThis 4) lengthBits);
     flags := uint8 (Z.land (Z.shiftr parseThis 1) 7);
     res := uint8 (Z.land parseThis 1) |}.

End Codec.

(** ** The file layer and the network client *)

Module FileIO.

Definition CrudRequest := Codec.CrudRequest.
Definition CrudResponse := Codec.CrudResponse.
Definition convert_to_CrudRequest := Codec.convert_to_CrudRequest.
Definition parse_CrudResponse := Codec.parse_CrudResponse.

(** One slot of the file allocation table.  The struct is declared in
    [crud_file_io.h], which is not among the sources; the fields are the
    ones [crud_file_io.c] assigns, with [position] and [length] unsigned
    32-bit (they are compared with the [uint32_t] argument of [crud_seek]
    and passed as the [uint32_t length] of a request). *)
Record CrudFileAllocationType := {
  filename : string;
  object_id : Z;
  position : Z;
  length : Z;
  open : Z
}.

(** Constants of the missing headers [crud_file_io.h] and [crud_network.h],
    taken as parameters. *)
Class Config := {
  CRUD_MAX_TOTAL_FILES : Z;
  CRUD_MAX_PATH_LENGTH : Z;
  sizeof_CrudFileAllocationType : Z;
  CRUD_NULL_FLAG : Z;
  CRUD_PRIORITY_OBJECT : Z;
  CRUD_INIT : Z;
  CRUD_FORMAT : Z;
  CRUD_CREATE : Z;
  CRUD_READ : Z;
  CRUD_UPDATE : Z;
  CRUD_DELETE : Z;
  CRUD_CLOSE : Z
}.

(** What a [void *buf] handed to the client points to: nothing ([NULL]),
    a block of bytes, or the file allocation table itself. *)
Inductive buf_kind := NullBuf | ByteBuf | TableBuf.

Definition buffer (k : buf_kind) : Type :=
  match k with
  | NullBuf => unit
  | ByteBuf => list byte
  | TableBuf => list CrudFileAllocationType
  end.

(** The operating system under the client: the stream socket and the
    contents of freshly allocated memory.  Each of the read and write
    loops of [crud_send] and [crud_receive] is one primitive that moves the
    whole block. *)
Class Platform (World : Type) := {
  (* socket, inet_aton and connect; false when one of them fails *)
  sock_connect : World -> bool * World;
  (* the 8 bytes of htonll64(request) *)
  sock_write_request : CrudRequest -> World -> World;
  (* buf_length bytes of buf *)
  sock_write_buf : forall k, buffer k -> Z -> World -> World;
  (* 8 bytes, through ntohll64 *)
  sock_read_response : World -> CrudResponse * World;
  (* buf_length bytes, as the cells of the buffer they fill *)
  sock_read_buf : forall k, Z -> World -> buffer k * World;
  sock_close : World -> World;
  (* the indeterminate contents of a block returned by malloc *)
  heap_contents : World -> nat -> byte
}.

(** One call of [crud_client_operation]: the request, the bytes of the
    buffer passed with it, the response returned, and the bytes of the
    buffer after the call. *)
Record Exchange := {
  sent : CrudRequest;
  sent_bytes : list byte;
  received : CrudResponse;
  received_bytes : list byte
}.

Definition failed (x : Exchange) : Prop :=
  Codec.res (parse_CrudResponse (received x)) = 1.

Definition opcode (x : Exchange) : Z :=
  Codec.req (parse_CrudResponse (sent x)).

(** The globals of [crud_client.c] (the socket), with the history of the
    calls of [crud_client_operation], which the C code does not keep: the
    properties below speak of the requests a call made. *)
Record Net (World : Type) := {
  socket : World;
  issued : list Exchange
}.
Arguments socket {World} _.
Arguments issued {World} _.

(** The globals of [crud_file_io.c]. *)
Record State (World : Type) := {
  InitFlag : Z;
  crud_file_table : list CrudFileAllocationType;
  net : Net World
}.
Arguments InitFlag {World} _.
Arguments crud_file_table {World} _.
Arguments net {World} _.

(** The result of a call: it returns, or it reads the file table at an
    index outside the array (undefined behaviour in C). *)
Inductive outcome (A : Type) : Type :=
| Returns (value : A)
| OutOfBounds (index : Z).
Arguments Returns {A} _.
Arguments OutOfBounds {A} _.

(** *** Memory blocks *)

(** Writing [incoming] at the start of a block, the rest of the block kept.
    A block keeps the size it was allocated with: cells of [incoming]
    beyond its end, which the C code would store past the block, are left
    out, so nothing stated about sizes rests on this function. *)
Definition overlay {A : Type} (incoming old : list A) : list A :=
  firstn (List.length old) (incoming ++ skipn (List.length incoming) old).

(** The cells read from the socket, written into the buffer (nothing is
    stored through a NULL pointer). *)
Definition store_buf (k : buf_kind) : buffer k -> buffer k -> buffer k :=
  match k with
  | NullBuf => fun _ old => old
  | ByteBuf => overlay
  | TableBuf => overlay
  end.

Definition bytes_of (k : buf_kind) : buffer k -> list byte :=
  match k with
  | ByteBuf => fun b => b
  | _ => fun _ => []
  end.

(** [memcpy(&dst[off], src, n)]. *)
Definition memcpy (dst : list byte) (off : Z) (src : list byte) (n : Z) : list byte :=
  firstn (Z.to_nat off) dst ++ firstn (Z.to_nat n) src
  ++ skipn (Z.to_nat (off + n)) dst.

(** [crud_file_table[fh]]; [None] when [fh] is outside the array. *)
Definition slot (tbl : list CrudFileAllocationType) (fh : Z)
    : option CrudFileAllocationType :=
  if fh <? 0 then None else nth_error tbl (Z.to_nat fh).

Definition vacant : CrudFileAllocationType :=
  {| filename := ""; object_id := 0; position := 0; length := 0; open := 0 |}.

Fixpoint set_nth {A : Type} (n : nat) (x : A) (l : list A) : list A :=
  match l, n with
  | [], _ => []
  | _ :: t, O => x :: t
  | h :: t, S n' => h :: set_nth n' x t
  end.

Definition set_slot (tbl : list CrudFileAllocationType) (fh : Z)
    (e : CrudFileAllocationType) : list CrudFileAllocationType :=
  if fh <? 0 then tbl else set_nth (Z.to_nat fh) e tbl.

Section Driver.

Context {World : Type} {platform : Platform World} {config : Config}.

Definition malloc (size : Z) (w : World) : list byte :=
  map (heap_contents w) (seq 0 (Z.to_nat size)).

(** *** crud_client.c *)

Definition crud_send {k : buf_kind} (request : CrudRequest) (buf : buffer k)
    (w : World) : Z * World :=
  let req := Z.land (Z.shiftr (uint64 request) 28) 15 in
  let buf_length := Z.land (Z.shiftr (uint64 request) 4) 16777215 in
  let w := sock_write_request request w in
  let w :=
    if (req =? CRUD_CREATE) || (req =? CRUD_UPDATE)
    then sock_write_buf k buf buf_length w
    else w in
  (0, w).

Definition crud_receive {k : buf_kind} (buf : buffer k) (w : World)
    : CrudResponse * buffer k * World :=
  let '(response_host_order, w) := sock_read_response w in
  let response_req := Z.land (Z.shiftr (uint64 response_host_order) 28) 15 in
  let buf_length := Z.land (Z.shiftr (uint64 response_host_order) 4) 16777215 in
  if response_req =? CRUD_READ then
    let '(data, w) := sock_read_buf k buf_length w in
    (response_host_order, store_buf k data buf, w)
  else (response_host_order, buf, w).

Definition crud_client_operation {k : buf_kind} (op : CrudRequest) (buf : buffer k)
    (w : World) : CrudResponse * buffer k * World :=
  let req := uint8 (Z.land (Z.shiftr (uint64 op) 28) 15) in
  let '(connected, w) := if req =? CRUD_INIT then sock_connect w else (true, w) in
  if negb connected then (uint64 (-1), buf, w) else
  let '(status, w) := crud_send op buf w in
  if negb (status =? 0) then (uint64 (-1), buf, w) else
  let '(response, buf, w) := crud_receive buf w in
  let w := if req =? CRUD_CLOSE then sock_close w else w in
  (response, buf, w).

(** A call of [crud_client_operation] from the file layer, entered in the
    history. *)
Definition exchange {k : buf_kind} (op : CrudRequest) (buf : buffer k) (n : Net World)
    : CrudResponse * buffer k * Net World :=
  let '(response, buf', w) := crud_client_operation op buf (socket n) in
  (response, buf',
   {| socket := w;
      issued := issued n ++
        [{| sent := op; sent_bytes := bytes_of k buf; received := response;
            received_bytes := bytes_of k buf' |}] |}).

(** *** crud_file_io.c *)

Definition with_net (st : State World) (n : Net World) : State World :=
  {| InitFlag := InitFlag st; crud_file_table := crud_file_table st; net := n |}.

Definition with_table (st : State World) (tbl : list CrudFileAllocationType)
    : State World :=
  {| InitFlag := InitFlag st; crud_file_table := tbl; net := net st |}.

(** The block every entry point starts with: when [InitFlag] is 0, send
    CRUD_INIT and set the flag if it succeeded.  The boolean is false when
    the entry point returns -1 there. *)
Definition initialize (st : State World) : bool * State World :=
  if InitFlag st =? 0 then
    let initialize := convert_to_CrudRequest 0 CRUD_INIT 0 0 0 in
    let '(initialized, _, n) := exchange (k := NullBuf) initialize tt (net st) in
    let initParsed := parse_CrudResponse initialized in
    if Codec.res initParsed =? 1 then (false, with_net st n)
    else (true, {| InitFlag := 1; crud_file_table := crud_file_table st; net := n |})
  else (true, st).

(** The loop of [crud_format] that empties slots [i], [i+1], ... below
    CRUD_MAX_TOTAL_FILES; [n] is the number of slots left. *)
Fixpoint clear_slots (n : nat) (i : Z) (tbl : list CrudFileAllocationType)
    : list CrudFileAllocationType :=
  match n with
  | O => tbl
  | S n' => clear_slots n' (i + 1) (set_slot tbl i vacant)
  end.

Definition table_size : Z :=
  CRUD_MAX_TOTAL_FILES * sizeof_CrudFileAllocationType.

(** [crud_format] is declared [uint16_t]: its [return -1] yields 65535. *)
Definition crud_format (st : State World) : Z * State World :=
  let '(ok, st) := initialize st in
  if negb ok then (uint16 (-1), st) else
  let format := convert_to_CrudRequest 0 CRUD_FORMAT 0 CRUD_NULL_FLAG 0 in
  let '(formatted, _, n) := exchange (k := NullBuf) format tt (net st) in
  let st := with_net st n in
  let formatParsed := parse_CrudResponse formatted in
  if Codec.res formatParsed =? 1 then (uint16 (-1), st) else
  let st := with_table st
    (clear_slots (Z.to_nat CRUD_MAX_TOTAL_FILES) 0 (crud_file_table st)) in
  let create := convert_to_CrudRequest 0 CRUD_CREATE table_size CRUD_PRIORITY_OBJECT 0 in
  let '(created, tbl, n) :=
    exchange (k := TableBuf) create (crud_file_table st) (net st) in
  let st := with_net (with_table st tbl) n in
  let createParsed := parse_CrudResponse created in
  if Codec.res createParsed =? 1 then (uint16 (-1), st) else
  (uint16 0, st).

Definition crud_mount (st : State World) : Z * State World :=
  let '(ok, st) := initialize st in
  if negb ok then (uint16 (-1), st) else
  let read := convert_to_CrudRequest 0 CRUD_READ table_size CRUD_PRIORITY_OBJECT 0 in
  let '(readResponse, tbl, n) :=
    exchange (k := TableBuf) read (crud_file_table st) (net st) in
  let st := with_net (with_table st tbl) n in
  let parsedReadResponse := parse_CrudResponse readResponse in
  if Codec.res parsedReadResponse =? 1 then (uint16 (-1), st) else
  (uint16 0, st).

Definition crud_unmount (st : State World) : Z * State World :=
  if InitFlag st =? 0 then (uint16 (-1), st) else
  let update := convert_to_CrudRequest 0 CRUD_UPDATE table_size CRUD_PRIORITY_OBJECT 0 in
  let '(updated, tbl, n) :=
    exchange (k := TableBuf) update (crud_file_table st) (net st) in
  let st := with_net (with_table st tbl) n in
  let updatedObject := parse_CrudResponse updated in
  if Codec.res updatedObject =? 1 then (uint16 (-1), st) else
  let close := convert_to_CrudRequest 0 CRUD_CLOSE 0 CRUD_NULL_FLAG 0 in
  let '(closed, _, n) := exchange (k := NullBuf) close tt (net st) in
  let st := with_net st n in
  let parsedCloseResponse := parse_CrudResponse closed in
  if Codec.res parsedCloseResponse =? 1 then (uint16 (-1), st) else
  (uint16 0, st).

(** The first loop of [crud_open]: from slot [fh] on ([rest] is the table
    from there), the first slot named [path], or CRUD_MAX_TOTAL_FILES. *)
Fixpoint find_name (path : string) (rest : list CrudFileAllocationType) (fh : Z)
    : outcome Z :=
  if negb (fh <? CRUD_MAX_TOTAL_FILES) then Returns fh else
  match rest with
  | [] => OutOfBounds fh
  | e :: rest' =>
      if negb (String.eqb (filename e) path)
      then find_name path rest' (fh + 1)
      else Returns fh
  end.

(** The second loop of [crud_open]: the first slot with an empty name.  The
    loop has no bound on [fh]; past the last slot it reads outside the
    table. *)
Fixpoint find_vacant (rest : list CrudFileAllocationType) (fh : Z) : outcome Z :=
  match rest with
  | [] => OutOfBounds fh
  | e :: rest' =>
      if negb (String.eqb (filename e) "")
      then find_vacant rest' (fh + 1)
      else Returns fh
  end.

Definition crud_open (path : string) (st : State World) : outcome (Z * State World) :=
  let fh := 0 in
  let '(ok, st) := initialize st in
  if negb ok then Returns (-1, st) else
  let strlen := Z.of_nat (String.length path) in
  if (strlen >? CRUD_MAX_PATH_LENGTH) || (strlen <=? 0) then Returns (-1, st) else
  match find_name path (crud_file_table st) fh with
  | OutOfBounds i => OutOfBounds i
  | Returns fh =>
      if fh =? CRUD_MAX_TOTAL_FILES then
        let fh := 0 in
        match find_vacant (crud_file_table st) fh with
        | OutOfBounds i => OutOfBounds i
        | Returns fh =>
            if fh =? CRUD_MAX_TOTAL_FILES then Returns (-1, st) else
            let e := {| filename := path; object_id := 0; position := 0;
                        length := 0; open := 1 |} in
            Returns (int16 fh, with_table st (set_slot (crud_file_table st) fh e))
        end
      else
        match slot (crud_file_table st) fh with
        | None => OutOfBounds fh
        | Some e =>
            if open e =? 1 then Returns (-1, st) else
            let e := {| filename := filename e; object_id := object_id e;
                        position := 0; length := length e; open := 1 |} in
            Returns (int16 fh, with_table st (set_slot (crud_file_table st) fh e))
        end
  end.

Definition crud_close (fh : Z) (st : State World) : outcome (Z * State World) :=
  let '(ok, st) := initialize st in
  if negb ok then Returns (-1, st) else
  if (fh >=? CRUD_MAX_TOTAL_FILES) || (fh <? 0) then Returns (-1, st) else
  match slot (crud_file_table st) fh with
  | None => OutOfBounds fh
  | Some e =>
      if open e =? 0 then Returns (-1, st) else
      let e := {| filename := filename e; object_id := object_id e;
                  position := position e; length := length e; open := 0 |} in
      Returns (0, with_table st (set_slot (crud_file_table st) fh e))
  end.

(** [crud_read] returns the byte count and leaves the bytes in the caller's
    [buf]; the model returns both. *)
Definition crud_read (fd : Z) (buf : list byte) (count : Z) (st : State World)
    : outcome (Z * list byte * State World) :=
  let '(ok, st) := initialize st in
  if negb ok then Returns (-1, buf, st) else
  if (fd >=? CRUD_MAX_TOTAL_FILES) || (fd <? 0) then Returns (-1, buf, st) else
  if count <? 0 then Returns (-1, buf, st) else
  match slot (crud_file_table st) fd with
  | None => OutOfBounds fd
  | Some e =>
      if open e =? 0 then Returns (-1, buf, st) else
      let read := convert_to_CrudRequest (object_id e) CRUD_READ (length e) 0 0 in
      let readBuf := malloc (length e) (socket (net st)) in
      let '(readResponse, readBuf, n) :=
        exchange (k := ByteBuf) read readBuf (net st) in
      let st := with_net st n in
      let parsedReadResponse := parse_CrudResponse readResponse in
      if Codec.res parsedReadResponse =? 1 then Returns (-1, buf, st) else
      let remaining := uint32 (length e - position e) in
      let buf :=
        if uint32 count >? remaining
        then memcpy buf 0 (skipn (Z.to_nat (position e)) readBuf) remaining
        else memcpy buf 0 (skipn (Z.to_nat (position e)) readBuf) count in
      if uint32 count >? remaining then
        let bytesRead := int32 remaining in
        let e := {| filename := filename e; object_id := object_id e;
                    position := length e; length := length e; open := open e |} in
        Returns (bytesRead, buf, with_table st (set_slot (crud_file_table st) fd e))
      else
        let e := {| filename := filename e; object_id := object_id e;
                    position := uint32 (position e + count); length := length e;
                    open := open e |} in
        Returns (count, buf, with_table st (set_slot (crud_file_table st) fd e))
  end.

(** [buf] is [None] for a NULL pointer. *)
Definition crud_write (fd : Z) (buf : option (list byte)) (count : Z) (st : State World)
    : outcome (Z * State World) :=
  let '(ok, st) := initialize st in
  if negb ok then Returns (-1, st) else
  match buf with
  | None => Returns (-1, st)
  | Some buf =>
  if count <? 0 then Returns (-1, st) else
  if (fd >=? CRUD_MAX_TOTAL_FILES) || (fd <? 0) then Returns (-1, st) else
  match slot (crud_file_table st) fd with
  | None => OutOfBounds fd
  | Some e =>
      if open e =? 0 then Returns (-1, st) else
      (* Case 1 - Object does not yet exist *)
      if object_id e =? 0 then
        let create := convert_to_CrudRequest 0 CRUD_CREATE count 0 0 in
        let '(created, _, n) := exchange (k := ByteBuf) create buf (net st) in
        let st := with_net st n in
        let newObject := parse_CrudResponse created in
        if Codec.res newObject =? 1 then Returns (-1, st) else
        let e := {| filename := filename e; object_id := Codec.oID newObject;
                    position := uint32 count; length := uint32 count; open := open e |} in
        Returns (count, with_table st (set_slot (crud_file_table st) fd e))
      else
        let read := convert_to_CrudRequest (object_id e) CRUD_READ (length e) 0 0 in
        let readBuf := malloc (length e) (socket (net st)) in
        let '(readResponse, readBuf, n) :=
          exchange (k := ByteBuf) read readBuf (net st) in
        let st := with_net st n in
        let parsedReadResponse := parse_CrudResponse readResponse in
        if Codec.res parsedReadResponse =? 1 then Returns (-1, st) else
        (* Case 2 - writing past end of object *)
        if uint32 (position e + count) >? length e then
          let newBuf := malloc (uint32 (position e + count)) (socket (net st)) in
          let newBuf := memcpy newBuf 0 readBuf (length e) in
          let newBuf := memcpy newBuf (position e) buf count in
          let create :=
            convert_to_CrudRequest 0 CRUD_CREATE (uint32 (position e + count)) 0 0 in
          let '(created, _, n) :=
            exchange (k := ByteBuf) create newBuf (net st) in
          let st := with_net st n in
          let newObject := parse_CrudResponse created in
          if Codec.res newObject =? 1 then Returns (-1, st) else
          let delete := convert_to_CrudRequest (object_id e) CRUD_DELETE 0 0 0 in
          let '(deleted, _, n) :=
            exchange (k := NullBuf) delete tt (net st) in
          let st := with_net st n in
          let deletedObject := parse_CrudResponse deleted in
          if Codec.res deletedObject =? 1 then Returns (-1, st) else
          let e := {| filename := filename e; object_id := Codec.oID newObject;
                      position := uint32 (position e + count);
                      length := uint32 (position e + count); open := open e |} in
          Returns (count, with_table st (set_slot (crud_file_table st) fd e))
        (* Case 3 - object not changing size *)
        else
          let readBuf := memcpy readBuf (position e) buf count in
          let update := convert_to_CrudRequest (object_id e) CRUD_UPDATE (length e) 0 0 in
          let '(updated, _, n) :=
            exchange (k := ByteBuf) update readBuf (net st) in
          let st := with_net st n in
          let updatedObject := parse_CrudResponse updated in
          if Codec.res updatedObject =? 1 then Returns (-1, st) else
          let e := {| filename := filename e; object_id := object_id e;
                      position := uint32 (position e + count); length := length e;
                      open := open e |} in
          Returns (count, with_table st (set_slot (crud_file_table st) fd e))
  end
  end.

Definition crud_seek (fd : Z) (loc : Z) (st : State World) : outcome (Z * State World) :=
  let loc := uint32 loc in
  let '(ok, st) := initialize st in
  if negb ok then Returns (-1, st) else
  if (fd >=? CRUD_MAX_TOTAL_FILES) || (fd <? 0) then Returns (-1, st) else
  match slot (crud_file_table st) fd with
  | None => OutOfBounds fd
  | Some e =>
      if open e =? 0 then Returns (-1, st) else
      if (loc >? length e) || (loc <? 0) then Returns (-1, st) else
      let e := {| filename := filename e; object_id := object_id e;
                  position := loc; length := length e; open := open e |} in
      Returns (0, with_table st (set_slot (crud_file_table st) fd e))
  end.

(** The exchanges made between two states of one run. *)
Definition during (st st' : State World) : list Exchange :=
  skipn (List.length (issued (net st))) (issued (net st')).

(** The READ of the whole backing object of slot [e], with which
    [crud_read] and [crud_write] (on an existing object) start. *)
Definition fetch (e : CrudFileAllocationType) (n : Net World)
    : CrudResponse * list byte * Net World :=
  exchange (k := ByteBuf)
    (convert_to_CrudRequest (object_id e) CRUD_READ (length e) 0 0)
    (malloc (length e) (socket n)) n.

(** *** Conditions on states *)

(** A table of CRUD_MAX_TOTAL_FILES slots, as the C array is declared. *)
Definition full_size (st : State World) : Prop :=
  Z.of_nat (List.length (crud_file_table st)) = CRUD_MAX_TOTAL_FILES.

(** The position of a slot lies within its length. *)
Definition slot_ok (e : CrudFileAllocationType) : Prop :=
  0 <= position e <= length e.

Definition table_ok (st : State World) : Prop :=
  Forall slot_ok (crud_file_table st).

(** Every table the socket delivers has its positions within the lengths
    (as a table saved by this code has). *)
Definition delivers_ok : Prop :=
  forall (len : Z) (w : World), Forall slot_ok (fst (sock_read_buf TableBuf len w)).

(** What the body of an entry point, after its CRUD_INIT block, may do to
    the state [st0] it starts from: [InitFlag] stays, the history grows,
    and, under the condition [D] on the store, the positions stay within
    the lengths. *)
Definition follows (D : Prop) (st0 st' : State World) : Prop :=
  InitFlag st' = InitFlag st0
  /\ (exists xs, issued (net st') = issued (net st0) ++ xs)
  /\ (D -> table_ok st0 -> table_ok st').

(** No two slots carry the same non-empty name. *)
Definition distinct_names (tbl : list CrudFileAllocationType) : Prop :=
  forall (i j : Z) (ei ej : CrudFileAllocationType),
    slot tbl i = Some ei -> slot tbl j = Some ej ->
    filename ei = filename ej -> filename ei <> ""%string -> i = j.

(** The globals as the program starts: [InitFlag] is 0 and the table, a
    global array, is zeroed. *)
Definition boot (w : World) : State World :=
  {| InitFlag := 0;
     crud_file_table := repeat vacant (Z.to_nat CRUD_MAX_TOTAL_FILES);
     net := {| socket := w; issued := [] |} |}.

(** *** Sessions: sequences of calls of the public interface *)

Inductive Call :=
| Format
| Mount
| Unmount
| Open (path : string)
| Close (fh : Z)
| Read (fd : Z) (buf : list byte) (count : Z)
| Write (fd : Z) (buf : option (list byte)) (count : Z)
| Seek (fd : Z) (loc : Z).

(** The calls of the file layer, as opposed to format, mount and unmount,
    which hand the table itself to the store. *)
Definition file_call (c : Call) : bool :=
  match c with
  | Format | Mount | Unmount => false
  | _ => true
  end.

(** The value a call returns and the state it leaves. *)
Definition perform (c : Call) (st : State World) : outcome (Z * State World) :=
  match c with
  | Format => Returns (crud_format st)
  | Mount => Returns (crud_mount st)
  | Unmount => Returns (crud_unmount st)
  | Open path => crud_open path st
  | Close fh => crud_close fh st
  | Read fd buf count =>
      match crud_read fd buf count st with
      | Returns (r, _, st') => Returns (r, st')
      | OutOfBounds i => OutOfBounds i
      end
  | Write fd buf count => crud_write fd buf count st
  | Seek fd loc => crud_seek fd loc st
  end.

Fixpoint session (cs : list Call) (st : State World) : outcome (State World) :=
  match cs with
  | [] => Returns st
  | c :: cs' =>
      match perform c st with
      | Returns (_, st') => session cs' st'
      | OutOfBounds i => OutOfBounds i
      end
  end.

End Driver.

End FileIO.

(** ** A scripted store, for concrete runs *)

Module Demo.

Import FileIO.

Definition config : Config :=
  {| CRUD_MAX_TOTAL_FILES := 2;
     CRUD_MAX_PATH_LENGTH := 128;
     sizeof_CrudFileAllocationType := 144;
     CRUD_NULL_FLAG := 0;
     CRUD_PRIORITY_OBJECT := 1;
     CRUD_INIT := 0;
     CRUD_FORMAT := 1;
     CRUD_CREATE := 2;
     CRUD_READ := 3;
     CRUD_UPDATE := 4;
     CRUD_DELETE := 5;
     CRUD_CLOSE := 6 |}.

(** What the store answers to one request. *)
Record Reply := {
  answer : CrudResponse;
  data : list byte;
  table : list CrudFileAllocationType
}.

(** The connection: whether the server can be reached, the answers still
    to come, and the answer being received. *)
Record Wire := {
  reachable : bool;
  script : list Reply;
  current : Reply
}.

Definition quiet : Reply := {| answer := 0; data := []; table := [] |}.

(** The socket of the scripted store; [deliver] is what the store does to
    a table before sending it. *)
Definition scripted
    (deliver : list CrudFileAllocationType -> list CrudFileAllocationType)
    : Platform Wire :=
  {| sock_connect := fun w => (reachable w, w);
     sock_write_request := fun _ w => w;
     sock_write_buf := fun _ _ _ w => w;
     sock_read_response := fun w =>
       match script w with
       | [] => (0, w)
       | r :: rest =>
           (answer r, {| reachable := reachable w; script := rest; current := r |})
       end;
     sock_read_buf := fun k _ w =>
       (match k return buffer k with
        | NullBuf => tt
        | ByteBuf => data (current w)
        | TableBuf => deliver (table (current w))
        end, w);
     sock_close := fun w => w;
     heap_contents := fun _ _ => x00 |}.

(** A store that sends tables as they are. *)
Definition platform : Platform Wire := scripted (fun t => t).

(** A store that only sends slots whose position is within the length. *)
Definition sound (e : CrudFileAllocationType) : bool :=
  (0 <=? position e) && (position e <=? length e).

Definition careful : Platform Wire := scripted (filter sound).

Definition wire (answers : list Reply) : Wire :=
  {| reachable := true; script := answers; current := quiet |}.

Definition state (flag : Z) (tbl : list CrudFileAllocationType) (answers : list Reply)
    : State Wire :=
  {| InitFlag := flag; crud_file_table := tbl;
     net := {| socket := wire answers; issued := [] |} |}.

(** A success or failure answer to a request with operation code [op]. *)
Definition ok (op oid len : Z) (bytes : list byte) : Reply :=
  {| answer := Codec.convert_to_CrudRequest oid op len 0 0; data := bytes; table := [] |}.
Definition ko (op : Z) : Reply :=
  {| answer := Codec.convert_to_CrudRequest 0 op 0 0 1; data := []; table := [] |}.

Definition file (name : string) (oid pos len opn : Z) : CrudFileAllocationType :=
  {| filename := name; object_id := oid; position := pos; length := len; open := opn |}.

(** The entry points on the scripted store that sends tables as they are. *)
Definition crud_format := FileIO.crud_format (platform := platform) (config := config).
Definition crud_unmount := FileIO.crud_unmount (platform := platform) (config := config).
Definition crud_open := FileIO.crud_open (platform := platform) (config := config).
Definition crud_read := FileIO.crud_read (platform := platform) (config := config).
Definition crud_write := FileIO.crud_write (platform := platform) (config := config).

(** The state a call leaves, [st] when it does not return. *)
Definition after {A : Type} (o : outcome (A * State Wire)) (st : State Wire)
    : State Wire :=
  match o with
  | Returns (_, st') => st'
  | OutOfBounds _ => st
  end.

(** Slot 0 is the open file "a": object 7 of 4 bytes, position 2.  The
    store answers the READ, answers the CREATE with object 9, and refuses
    the DELETE. *)
Definition growing : State Wire :=
  state 1 [file "a" 7 2 4 1; vacant]
    [ok 3 7 4 [x0a; x0b; x0c; x0d]; ok 2 9 5 []; ko 5].

(** The same file at position 1; the store answers the READ and the UPDATE. *)
Definition updating : State Wire :=
  state 1 [file "a" 7 1 4 1; vacant]
    [ok 3 7 4 [x0a; x0b; x0c; x0d]; ok 4 7 4 []].

(** A 10-byte object read at position 8. *)
Definition reading : State Wire :=
  state 1 [file "a" 7 8 10 1; vacant]
    [ok 3 7 10 [x00; x01; x02; x03; x04; x05; x06; x07; x08; x09]].

(** Both slots taken, by the closed files "a" and "b". *)
Definition crowded : State Wire :=
  state 1 [file "a" 0 0 0 0; file "b" 0 0 0 0] [].

(** A table with one file; the store accepts the FORMAT and refuses the
    CREATE of the table object. *)
Definition formatting : State Wire :=
  state 1 [file "a" 7 2 4 1; vacant] [ok 1 0 0 []; ko 2].

(** The program at its start, with a store that accepts every request. *)
Definition fresh : State Wire :=
  state 0 [vacant; vacant] [].

(** A whole session on the careful store: format, open "a", write three
    bytes (the store creates object 5), seek to 1, read, close, unmount. *)
Definition started : State Wire :=
  boot (config := config)
    (wire [ok 0 0 0 []; ok 1 0 0 []; ok 2 0 0 []; ok 2 5 3 [];
           ok 3 5 3 [x01; x02; x03]; ok 4 0 0 []; ok 6 0 0 []]).

Definition journey : list Call :=
  [Format; Open "a"; Write 0 (Some [x01; x02; x03]) 3; Seek 0 1;
   Read 0 [x00; x00; x00; x00; x00] 5; Close 0; Unmount].

Definition arrived : State Wire :=
  match session (platform := careful) (config := config) journey started with
  | Returns st => st
  | OutOfBounds _ => started
  end.

Definition nothing : Exchange :=
  {| sent := 0; sent_bytes := []; received := 0; received_bytes := [] |}.

(** The program at its start; the store accepts the CRUD_INIT and refuses
    the FORMAT. *)
Definition refused : State Wire :=
  state 0 [vacant; vacant] [ok 0 0 0 []; ko 1].

End Demo.

(** ** Arithmetic reading of the bit operations *)

Lemma lor_shifted_add (hi lo n : Z) :
  0 <= n -> 0 <= lo < 2 ^ n -> Z.lor (hi * 2 ^ n) lo = hi * 2 ^ n + lo.
Proof.
  intros Hn Hlo.
  assert (Hd : Z.land (hi * 2 ^ n) lo = 0).
  { apply Z.bits_inj'. intros i Hi. rewrite Z.land_spec, Z.bits_0.
    destruct (Z.lt_ge_cases i n) as [Hlt | Hge].
    - rewrite Z.mul_pow2_bits_low by lia. reflexivity.
    - rewrite <- (Z.mod_small lo (2 ^ n)) by lia.
      rewrite Z.mod_pow2_bits_high by lia. apply andb_false_r. }
  rewrite <- Z.lxor_lor by exact Hd. symmetry. apply Z.add_nocarry_lxor. exact Hd.
Qed.

Lemma mask24 : Z.shiftr (uint32 (Z.lnot 0)) 8 = Z.ones 24.
Proof. reflexivity. Qed.

Lemma land_low_bits (a : Z) :
  Z.land a 15 = a mod 2 ^ 4 /\ Z.land a 7 = a mod 2 ^ 3 /\ Z.land a 1 = a mod 2 ^ 1
  /\ Z.land a (Z.ones 24) = a mod 2 ^ 24.
Proof.
  repeat split.
  - apply (Z.land_ones a 4). lia.
  - apply (Z.land_ones a 3). lia.
  - apply (Z.land_ones a 1). lia.
  - apply (Z.land_ones a 24). lia.
Qed.

Ltac land_to_mod :=
  repeat first
    [ rewrite (proj1 (land_low_bits _))
    | rewrite (proj1 (proj2 (land_low_bits _)))
    | rewrite (proj1 (proj2 (proj2 (land_low_bits _))))
    | rewrite (proj2 (proj2 (proj2 (land_low_bits _)))) ].

Lemma mod_pow2_narrow (a m n : Z) :
  0 <= n <= m -> (a mod 2 ^ m) mod 2 ^ n = a mod 2 ^ n.
Proof.
  intros H. apply Z.mod_mod_divide. exists (2 ^ (m - n)).
  rewrite <- Z.pow_add_r by lia. f_equal. lia.
Qed.

Lemma lor_fields (o r l f s : Z) :
  0 <= o < 2 ^ 32 -> 0 <= r < 2 ^ 4 -> 0 <= l < 2 ^ 24 -> 0 <= f < 2 ^ 3 ->
  0 <= s < 2 ^ 1 ->
  Z.lor (Z.lor (Z.lor (Z.lor (o * 2 ^ 32) (r * 2 ^ 28)) (l * 2 ^ 4)) (f * 2 ^ 1)) s
  = o * 2 ^ 32 + r * 2 ^ 28 + l * 2 ^ 4 + f * 2 ^ 1 + s.
Proof.
  intros Ho Hr Hl Hf Hs.
  rewrite (lor_shifted_add o (r * 2 ^ 28) 32) by lia.
  replace (o * 2 ^ 32 + r * 2 ^ 28) with ((o * 2 ^ 4 + r) * 2 ^ 28) by lia.
  rewrite (lor_shifted_add _ (l * 2 ^ 4) 28) by lia.
  replace ((o * 2 ^ 4 + r) * 2 ^ 28 + l * 2 ^ 4)
    with (((o * 2 ^ 4 + r) * 2 ^ 24 + l) * 2 ^ 4) by lia.
  rewrite (lor_shifted_add _ (f * 2 ^ 1) 4) by lia.
  replace (((o * 2 ^ 4 + r) * 2 ^ 24 + l) * 2 ^ 4 + f * 2 ^ 1)
    with ((((o * 2 ^ 4 + r) * 2 ^ 24 + l) * 2 ^ 3 + f) * 2 ^ 1) by lia.
  rewrite (lor_shifted_add _ s 1) by lia.
  lia.
Qed.

Section Layout.

Import Codec.

(** The descriptor as a sum of its five fields, each reduced to its width. *)
Lemma convert_to_CrudRequest_sum (o r l f s : Z) :
  convert_to_CrudRequest o r l f s =
  (o mod 2 ^ 32) * 2 ^ 32 + (r mod 2 ^ 4) * 2 ^ 28 + (l mod 2 ^ 24) * 2 ^ 4
  + (f mod 2 ^ 3) * 2 ^ 1 + s mod 2 ^ 1.
Proof.
  unfold convert_to_CrudRequest. cbv zeta. rewrite mask24.
  land_to_mod. rewrite !Z.shiftl_mul_pow2 by lia.
  unfold uint8, uint32, uint64.
  change 256 with (2 ^ 8). change 4294967296 with (2 ^ 32).
  change 18446744073709551616 with (2 ^ 64).
  rewrite (mod_pow2_narrow r 8 4), (mod_pow2_narrow f 8 3), (mod_pow2_narrow s 8 1),
    (mod_pow2_narrow l 32 24) by lia.
  assert (Ho := Z.mod_pos_bound o (2 ^ 32) ltac:(lia)).
  assert (Hr := Z.mod_pos_bound r (2 ^ 4) ltac:(lia)).
  assert (Hl := Z.mod_pos_bound l (2 ^ 24) ltac:(lia)).
  assert (Hf := Z.mod_pos_bound f (2 ^ 3) ltac:(lia)).
  assert (Hs := Z.mod_pos_bound s (2 ^ 1) ltac:(lia)).
  rewrite (Z.mod_small (r mod 2 ^ 4) (2 ^ 8)), (Z.mod_small (f mod 2 ^ 3) (2 ^ 8)),
    (Z.mod_small (s mod 2 ^ 1) (2 ^ 8)) by lia.
  rewrite !(Z.mod_small (_ * _) (2 ^ 64)) by lia.
  apply lor_fields; assumption.
Qed.

(** The fields of a descriptor as quotients and remainders. *)
Lemma parse_CrudResponse_div (x : Z) :
  parse_CrudResponse x =
  {| oID := (x mod 2 ^ 64) / 2 ^ 32;
     req := ((x mod 2 ^ 64) / 2 ^ 28) mod 2 ^ 4;
     length := ((x mod 2 ^ 64) / 2 ^ 4) mod 2 ^ 24;
     flags := ((x mod 2 ^ 64) / 2 ^ 1) mod 2 ^ 3;
     res := (x mod 2 ^ 64) mod 2 ^ 1 |}.
Proof.
  unfold parse_CrudResponse. cbv zeta. rewrite mask24.
  land_to_mod. rewrite !Z.shiftr_div_pow2 by lia.
  unfold uint8, uint32, uint64.
  change 256 with (2 ^ 8). change 4294967296 with (2 ^ 32).
  change 18446744073709551616 with (2 ^ 64).
  assert (Hx := Z.mod_pos_bound x (2 ^ 64) ltac:(lia)).
  set (y := x mod 2 ^ 64) in *.
  f_equal.
  - apply Z.mod_small. split; [apply Z.div_pos; lia | apply Z.div_lt_upper_bound; lia].
  - apply Z.mod_small. pose proof (Z.mod_pos_bound (y / 2 ^ 28) (2 ^ 4)); lia.
  - apply Z.mod_small. pose proof (Z.mod_pos_bound (y / 2 ^ 4) (2 ^ 24)); lia.
  - apply Z.mod_small. pose proof (Z.mod_pos_bound (y / 2 ^ 1) (2 ^ 3)); lia.
  - apply Z.mod_small. pose proof (Z.mod_pos_bound y (2 ^ 1)); lia.
Qed.

(** Decoding an encoded descriptor yields every field reduced to its width. *)
Lemma parse_convert (o r l f s : Z) :
  parse_CrudResponse (convert_to_CrudRequest o r l f s) =
  {| oID := o mod 2 ^ 32; req := r mod 2 ^ 4; length := l mod 2 ^ 24;
     flags := f mod 2 ^ 3; res := s mod 2 ^ 1 |}.
Proof.
  rewrite parse_CrudResponse_div, convert_to_CrudRequest_sum.
  assert (Ho := Z.mod_pos_bound o (2 ^ 32) ltac:(lia)).
  assert (Hr := Z.mod_pos_bound r (2 ^ 4) ltac:(lia)).
  assert (Hl := Z.mod_pos_bound l (2 ^ 24) ltac:(lia)).
  assert (Hf := Z.mod_pos_bound f (2 ^ 3) ltac:(lia)).
  assert (Hs := Z.mod_pos_bound s (2 ^ 1) ltac:(lia)).
  generalize dependent (o mod 2 ^ 32). generalize dependent (r mod 2 ^ 4).
  generalize dependent (l mod 2 ^ 24). generalize dependent (f mod 2 ^ 3).
  generalize dependent (s mod 2 ^ 1). intros s' Hs f' Hf l' Hl r' Hr o' Ho.
  change (2 ^ 32) with 4294967296 in *. change (2 ^ 28) with 268435456 in *.
  change (2 ^ 24) with 16777216 in *. change (2 ^ 64) with 18446744073709551616 in *.
  change (2 ^ 4) with 16 in *. change (2 ^ 3) with 8 in *. change (2 ^ 1) with 2 in *.
  rewrite (Z.mod_small _ 18446744073709551616) by lia.
  f_equal; Z.div_mod_to_equations; lia.
Qed.

End Layout.

(** ** Properties of the codec *)

(** C4. Round trip: for field values within their declared ranges
    (objectId < 2^32, opCode < 2^4, length < 2^24, flags < 2^3,
    result < 2^1), decoding the encoded descriptor reproduces the five
    inputs exactly. *)
Theorem parse_convert_round_trip (oID req length flags res : Z) :
  0 <= oID < 2 ^ 32 -> 0 <= req < 2 ^ 4 -> 0 <= length < 2 ^ 24 ->
  0 <= flags < 2 ^ 3 -> 0 <= res < 2 ^ 1 ->
  Codec.parse_CrudResponse (Codec.convert_to_CrudRequest oID req length flags res)
  = {| Codec.oID := oID; Codec.req := req; Codec.length := length;
       Codec.flags := flags; Codec.res := res |}.
Proof.
  intros Ho Hr Hl Hf Hs. rewrite parse_convert.
  rewrite !Z.mod_small by assumption. reflexivity.
Qed.

(** C9. Masking: for all inputs, in range or not, [convert_to_CrudRequest]
    is defined and packs each field cut to its declared width: the length
    to its low 24 bits, the operation code to its low 4 bits, the flags to
    their low 3 bits and the result to its low bit (the identifier fills
    the upper 32 bits), so that length 2^24 encodes as 0, operation code
    0x1F as 0xF, flags 0xF as 7 and result 2 as 0. *)
Theorem convert_to_CrudRequest_truncates (oID req length flags res : Z) :
  Codec.convert_to_CrudRequest oID req length flags res
  = Codec.convert_to_CrudRequest oID (Z.land req 15) (Z.land length (2 ^ 24 - 1))
      (Z.land flags 7) (Z.land res 1)
  /\ Codec.parse_CrudResponse (Codec.convert_to_CrudRequest oID req length flags res)
     = {| Codec.oID := uint32 oID; Codec.req := Z.land req 15;
          Codec.length := Z.land length (2 ^ 24 - 1);
          Codec.flags := Z.land flags 7; Codec.res := Z.land res 1 |}
  /\ Codec.convert_to_CrudRequest oID req (2 ^ 24) flags 2
     = Codec.convert_to_CrudRequest oID req 0 flags 0
  /\ Codec.parse_CrudResponse (Codec.convert_to_CrudRequest oID 31 (2 ^ 24) 15 2)
     = {| Codec.oID := uint32 oID; Codec.req := 15; Codec.length := 0;
          Codec.flags := 7; Codec.res := 0 |}.
Proof.
  change (2 ^ 24 - 1) with (Z.ones 24). land_to_mod.
  split; [ | split; [ | split ] ].
  - rewrite !convert_to_CrudRequest_sum.
    rewrite !Z.mod_mod by lia. reflexivity.
  - apply parse_convert.
  - rewrite !convert_to_CrudRequest_sum. reflexivity.
  - rewrite parse_convert. reflexivity.
Qed.

(** ** Properties of the file layer *)

Lemma Returns_inj (A : Type) (a b : A) :
  FileIO.Returns a = FileIO.Returns b -> a = b.
Proof. intros H. congruence. Qed.

(** Splitting an equation between tuples into its components. *)
Ltac split_pair H :=
  repeat match type of H with
         | (_, _) = (_, _) =>
             let H' := fresh H in
             apply pair_equal_spec in H; destruct H as [H H']
         end.

Ltac returned H := apply Returns_inj in H; split_pair H.

Section History.

Import FileIO.

Context {World : Type} {platform : Platform World} {config : Config}.

(** *** The history of exchanges *)

Lemma exchange_issued (k : buf_kind) (op : CrudRequest) (buf : buffer k)
    (n n' : Net World) (r : CrudResponse) (buf' : buffer k) :
  exchange op buf n = (r, buf', n') ->
  issued n' = issued n
    ++ [{| sent := op; sent_bytes := bytes_of k buf; received := r;
           received_bytes := bytes_of k buf' |}].
Proof.
  unfold exchange. intros H.
  destruct (crud_client_operation op buf (socket n)) as [[response b] w].
  apply pair_equal_spec in H. destruct H as [H Hn].
  apply pair_equal_spec in H. destruct H as [Hr Hb].
  subst. reflexivity.
Qed.

Lemma during_app (st st' : State World) (xs : list Exchange) :
  issued (net st') = issued (net st) ++ xs -> during st st' = xs.
Proof.
  intros H. unfold during. rewrite H, skipn_app, skipn_all, Nat.sub_diag.
  reflexivity.
Qed.

Lemma not_failed (x : Exchange) :
  (Codec.res (parse_CrudResponse (received x)) =? 1) = false -> ~ failed x.
Proof. unfold failed. intros H. apply Z.eqb_neq. exact H. Qed.

Lemma is_failed (x : Exchange) :
  (Codec.res (parse_CrudResponse (received x)) =? 1) = true -> failed x.
Proof. unfold failed. intros H. apply Z.eqb_eq. exact H. Qed.

(** The block at the head of every entry point. *)
Lemma initialize_spec (st st0 : State World) (ok : bool) :
  initialize st = (ok, st0) ->
  crud_file_table st0 = crud_file_table st
  /\ exists xs, issued (net st0) = issued (net st) ++ xs
     /\ (ok = false -> InitFlag st0 = InitFlag st /\ Exists failed xs)
     /\ (ok = true -> InitFlag st0 <> 0 /\ Forall (fun x => ~ failed x) xs
                      /\ (InitFlag st <> 0 -> st0 = st)).
Proof.
  unfold initialize. intros H.
  destruct (InitFlag st =? 0) eqn:Hflag.
  - destruct (exchange _ _ _) as [[initialized u] n] eqn:Hop.
    apply exchange_issued in Hop.
    destruct (Codec.res (parse_CrudResponse initialized) =? 1) eqn:Hres;
      split_pair H; subst ok st0; cbn [crud_file_table net InitFlag with_net];
      (split; [reflexivity | ]);
      eexists; (split; [exact Hop | ]); split; intros Hok; try discriminate.
    + split; [reflexivity | ]. constructor. apply is_failed. exact Hres.
    + split; [lia | ]. split.
      * constructor; [ | constructor ]. apply not_failed. exact Hres.
      * intros Hne. apply Z.eqb_eq in Hflag. contradiction.
  - split_pair H. subst ok st0. split; [reflexivity | ]. exists [].
    rewrite app_nil_r. split; [reflexivity | ]. split; intros Hok; try discriminate.
    split; [apply Z.eqb_neq; exact Hflag | ]. split; [constructor | reflexivity].
Qed.

(** While the flag is 0 the block makes one request, the CRUD_INIT, and
    its answer alone decides the outcome. *)
Lemma initialize_first (st st0 : State World) (ok : bool) :
  InitFlag st = 0 ->
  initialize st = (ok, st0) ->
  exists x : Exchange,
    issued (net st0) = issued (net st) ++ [x]
    /\ sent x = convert_to_CrudRequest 0 CRUD_INIT 0 0 0
    /\ (ok = true <-> ~ failed x).
Proof.
  unfold initialize. intros H0 H. rewrite H0 in H. cbn [Z.eqb] in H.
  destruct (exchange _ _ _) as [[initialized u] n] eqn:Hop.
  apply exchange_issued in Hop.
  destruct (Codec.res (parse_CrudResponse initialized) =? 1) eqn:Hres;
    split_pair H; subst ok st0; cbn [net with_net];
    eexists; (split; [exact Hop | ]); (split; [reflexivity | ]).
  - split; [discriminate | ]. intros Hgood. exfalso. apply Hgood.
    apply is_failed. exact Hres.
  - split; [ | reflexivity]. intros _. apply not_failed. exact Hres.
Qed.

End History.

(** The next call of the store in hypothesis [H], named and entered in
    the history. *)
Ltac next_exchange H r b n Hx :=
  match type of H with
  | context [@FileIO.exchange ?W ?P ?C ?k ?op ?buf ?m] =>
      let Hl := fresh "Hl" in
      destruct (@FileIO.exchange W P C k op buf m) as [[r b] n] eqn:Hx;
      pose proof (exchange_issued _ _ _ _ _ _ _ Hx) as Hl;
      cbn [FileIO.net FileIO.with_net FileIO.with_table FileIO.bytes_of] in Hl
  end.

(** The history at the end of a run, from the steps recorded on the way. *)
Ltac history :=
  cbn [FileIO.net FileIO.with_net FileIO.with_table];
  repeat match goal with
         | E : FileIO.issued ?n = _ |- context [FileIO.issued ?n] => rewrite E
         end;
  rewrite <- ?app_assoc; reflexivity.

(** Case analysis along the body of an entry point in hypothesis [H]:
    every call of the store is named, every test and table lookup is split. *)
Ltac walk H :=
  repeat match type of H with
         | context [@FileIO.exchange ?W ?P ?C ?k ?op ?buf ?m] =>
             let r := fresh "r" in
             let b := fresh "b" in
             let n := fresh "n" in
             let Hx := fresh "Hx" in
             next_exchange H r b n Hx
         | context [FileIO.slot ?t ?f] =>
             let He := fresh "He" in
             destruct (FileIO.slot t f) eqn:He
         | context [FileIO.find_name ?p ?t ?f] =>
             let Hf := fresh "Hf" in
             destruct (FileIO.find_name p t f) eqn:Hf
         | context [FileIO.find_vacant ?t ?f] =>
             let Hf := fresh "Hf" in
             destruct (FileIO.find_vacant t f) eqn:Hf
         | context [if ?c then _ else _] =>
             let Hc := fresh "Hc" in
             destruct c eqn:Hc
         end.

Ltac all_succeeded :=
  repeat (apply Forall_app; split); try assumption;
  repeat constructor; apply not_failed; assumption.

Section FileLayer.

Import FileIO.

Context {World : Type} {platform : Platform World} {config : Config}.

(** *** crud_write *)

Lemma crud_write_cases (fd : Z) (buf : option (list byte)) (count : Z)
    (st st' : State World) (r : Z) :
  crud_write fd buf count st = Returns (r, st') ->
  exists xs, issued (net st') = issued (net st) ++ xs
    /\ ((r = -1 /\ crud_file_table st' = crud_file_table st)
        \/ (r = count /\ 0 <= count /\ Forall (fun x => ~ failed x) xs)).
Proof.
  unfold crud_write. intros H.
  destruct (initialize st) as [ok st0] eqn:Hi.
  apply initialize_spec in Hi. destruct Hi as (Ht & xs0 & Hl & Hko & Hok).
  destruct ok; cbn [negb] in H.
  2:{ returned H. subst. exists xs0. split; [exact Hl | left; split; [reflexivity | exact Ht]]. }
  destruct (Hok eq_refl) as (_ & Hgood & _). clear Hok Hko.
  destruct buf as [buf | ].
  2:{ returned H. subst. exists xs0. split; [exact Hl | left; split; [reflexivity | exact Ht]]. }
  destruct (count <? 0) eqn:Hcount.
  { returned H. subst. exists xs0. split; [exact Hl | left; split; [reflexivity | exact Ht]]. }
  apply Z.ltb_ge in Hcount.
  destruct ((fd >=? CRUD_MAX_TOTAL_FILES) || (fd <? 0)).
  { returned H. subst. exists xs0. split; [exact Hl | left; split; [reflexivity | exact Ht]]. }
  destruct (slot (crud_file_table st0) fd) as [e | ]; [ | discriminate H].
  destruct (open e =? 0).
  { returned H. subst. exists xs0. split; [exact Hl | left; split; [reflexivity | exact Ht]]. }
  destruct (object_id e =? 0).
  - next_exchange H created b1 n1 Hx1.
    destruct (Codec.res (parse_CrudResponse created) =? 1) eqn:Hr1;
      returned H; subst r st'; eexists; (split; [history | ]).
    + left. split; [reflexivity | exact Ht].
    + right. split; [reflexivity | ]. split; [exact Hcount | all_succeeded].
  - next_exchange H readResponse readBuf n1 Hx1.
    destruct (Codec.res (parse_CrudResponse readResponse) =? 1) eqn:Hr1.
    { returned H; subst r st'; eexists; (split; [history | ]).
      left. split; [reflexivity | exact Ht]. }
    destruct (uint32 (position e + count) >? length e).
    + next_exchange H created b2 n2 Hx2.
      destruct (Codec.res (parse_CrudResponse created) =? 1) eqn:Hr2.
      { returned H; subst r st'; eexists; (split; [history | ]).
        left. split; [reflexivity | exact Ht]. }
      next_exchange H deleted b3 n3 Hx3.
      destruct (Codec.res (parse_CrudResponse deleted) =? 1) eqn:Hr3;
        returned H; subst r st'; eexists; (split; [history | ]).
      * left. split; [reflexivity | exact Ht].
      * right. split; [reflexivity | ]. split; [exact Hcount | all_succeeded].
    + next_exchange H updated b2 n2 Hx2.
      destruct (Codec.res (parse_CrudResponse updated) =? 1) eqn:Hr2;
        returned H; subst r st'; eexists; (split; [history | ]).
      * left. split; [reflexivity | exact Ht].
      * right. split; [reflexivity | ]. split; [exact Hcount | all_succeeded].
Qed.

Lemma slot_in_range (tbl : list CrudFileAllocationType) (fh : Z) :
  0 <= fh < Z.of_nat (List.length tbl) -> exists e, slot tbl fh = Some e.
Proof.
  intros H. unfold slot.
  destruct (fh <? 0) eqn:Hneg; [apply Z.ltb_lt in Hneg; lia | ].
  destruct (nth_error tbl (Z.to_nat fh)) as [e | ] eqn:He; [exists e; reflexivity | ].
  apply nth_error_None in He. lia.
Qed.

Lemma slot_checked (st : State World) (fd : Z) :
  full_size st -> (fd >=? CRUD_MAX_TOTAL_FILES) || (fd <? 0) = false ->
  exists e, slot (crud_file_table st) fd = Some e.
Proof.
  unfold full_size. intros Hsize Hfd. apply orb_false_iff in Hfd.
  destruct Hfd as [Hhi Hlo]. apply slot_in_range. lia.
Qed.

Lemma initialize_full_size (st st0 : State World) (ok : bool) :
  initialize st = (ok, st0) -> full_size st -> full_size st0.
Proof.
  intros Hi Hsize. apply initialize_spec in Hi. unfold full_size in *.
  destruct Hi as [Ht _]. rewrite Ht. exact Hsize.
Qed.

Lemma crud_write_returns (fd : Z) (buf : option (list byte)) (count : Z)
    (st : State World) :
  full_size st -> exists r st', crud_write fd buf count st = Returns (r, st').
Proof.
  intros Hsize. unfold crud_write.
  destruct (initialize st) as [ok st0] eqn:Hi.
  apply initialize_full_size in Hi; [ | exact Hsize].
  destruct ok; cbn [negb]; [ | eauto].
  destruct buf as [buf | ]; [ | eauto].
  destruct (count <? 0); [eauto | ].
  destruct ((fd >=? CRUD_MAX_TOTAL_FILES) || (fd <? 0)) eqn:Hfd; [eauto | ].
  destruct (slot_checked st0 fd Hi Hfd) as [e He]. rewrite He.
  destruct (open e =? 0); [eauto | ].
  destruct (object_id e =? 0).
  - destruct (exchange _ _ _) as [[created b1] n1].
    destruct (Codec.res (parse_CrudResponse created) =? 1); eauto.
  - destruct (exchange _ _ _) as [[readResponse readBuf] n1].
    destruct (Codec.res (parse_CrudResponse readResponse) =? 1); [eauto | ].
    destruct (uint32 (position e + count) >? length e).
    + destruct (exchange _ _ _) as [[created b2] n2].
      destruct (Codec.res (parse_CrudResponse created) =? 1); [eauto | ].
      destruct (exchange _ _ _) as [[deleted b3] n3].
      destruct (Codec.res (parse_CrudResponse deleted) =? 1); eauto.
    + destruct (exchange _ _ _) as [[updated b2] n2].
      destruct (Codec.res (parse_CrudResponse updated) =? 1); eauto.
Qed.

(** C1. On a table of CRUD_MAX_TOTAL_FILES slots every [crud_write]
    returns; it returns the requested byte count or -1; if any request it
    made to the store during the call was answered with a failure it
    returns -1; and whenever it returns -1 the file table, hence the
    handle's entry (filename, object identifier, length, position, open
    flag), is as it was before the call. *)
Theorem crud_write_all_or_nothing (fd : Z) (buf : option (list byte)) (count : Z)
    (st : State World) :
  full_size st ->
  exists r st',
    crud_write fd buf count st = Returns (r, st')
    /\ (r = count \/ r = -1)
    /\ (Exists failed (during st st') -> r = -1)
    /\ (r = -1 -> crud_file_table st' = crud_file_table st).
Proof.
  intros Hsize.
  destruct (crud_write_returns fd buf count st Hsize) as (r & st' & Hw).
  exists r, st'. split; [exact Hw | ].
  apply crud_write_cases in Hw. destruct Hw as (xs & Hl & Hcases).
  rewrite (during_app st st' xs Hl).
  destruct Hcases as [[Hr Ht] | (Hr & Hcount & Hgood)].
  - split; [right; exact Hr | ]. split; [intros _; exact Hr | intros _; exact Ht].
  - split; [left; exact Hr | ]. split.
    + intros Hbad. exfalso. apply Exists_exists in Hbad.
      destruct Hbad as (x & Hin & Hx).
      rewrite Forall_forall in Hgood. exact (Hgood x Hin Hx).
    + intros Hneg. lia.
Qed.

(** C2 (as the code has it). In a [crud_write] on an assigned object
    whose 32-bit sum position+count exceeds the length, when the CREATE of
    the replacement object succeeded and the DELETE of the old object then
    failed (the last two exchanges of the call), the call returns -1 and
    the entry of the handle is unchanged: it still holds the old object
    identifier, the identifier of the new object is not stored. *)
Theorem crud_write_grow_delete_failure (fd : Z) (buf : list byte) (count : Z)
    (st st' : State World) (r : Z) (e : CrudFileAllocationType)
    (before : list Exchange) (create delete : Exchange) :
  slot (crud_file_table st) fd = Some e ->
  object_id e <> 0 ->
  length e < uint32 (position e + count) ->
  crud_write fd (Some buf) count st = Returns (r, st') ->
  during st st' = before ++ [create; delete] ->
  sent delete = convert_to_CrudRequest (object_id e) CRUD_DELETE 0 0 0 ->
  ~ failed create ->
  failed delete ->
  r = -1 /\ slot (crud_file_table st') fd = Some e.
Proof.
  intros He Hid Hgrow Hw Hd Hsent Hcreate Hdelete.
  apply crud_write_cases in Hw. destruct Hw as (xs & Hl & Hcases).
  rewrite (during_app st st' xs Hl) in Hd. subst xs.
  destruct Hcases as [[Hr Ht] | (Hr & Hcount & Hgood)].
  - split; [exact Hr | ]. rewrite Ht. exact He.
  - exfalso. rewrite Forall_forall in Hgood. apply (Hgood delete); [ | exact Hdelete].
    apply in_or_app. right. right. left. reflexivity.
Qed.

(** *** crud_open *)

Lemma find_name_absent (path : string) (rest : list CrudFileAllocationType) (fh : Z) :
  Forall (fun e => filename e <> path) rest ->
  fh + Z.of_nat (List.length rest) = CRUD_MAX_TOTAL_FILES ->
  find_name path rest fh = Returns CRUD_MAX_TOTAL_FILES.
Proof.
  revert fh. induction rest as [ | e rest IH]; intros fh Hall Hlen; cbn [find_name].
  - cbn [List.length] in Hlen.
    destruct (fh <? CRUD_MAX_TOTAL_FILES) eqn:Hlt; cbn [negb].
    + apply Z.ltb_lt in Hlt. lia.
    + f_equal. lia.
  - cbn [List.length] in Hlen. inversion Hall as [ | e' rest' Hne Hrest]; subst.
    destruct (fh <? CRUD_MAX_TOTAL_FILES) eqn:Hlt; cbn [negb].
    + apply String.eqb_neq in Hne. rewrite Hne. cbn [negb].
      apply IH; [exact Hrest | lia].
    + apply Z.ltb_ge in Hlt. lia.
Qed.

Lemma find_vacant_none (rest : list CrudFileAllocationType) (fh : Z) :
  Forall (fun e => filename e <> ""%string) rest ->
  find_vacant rest fh = OutOfBounds (fh + Z.of_nat (List.length rest)).
Proof.
  revert fh. induction rest as [ | e rest IH]; intros fh Hall; cbn [find_vacant].
  - cbn [List.length]. f_equal. lia.
  - inversion Hall as [ | e' rest' Hne Hrest]; subst.
    apply String.eqb_neq in Hne. rewrite Hne. cbn [negb].
    rewrite (IH (fh + 1) Hrest). cbn [List.length]. f_equal. lia.
Qed.

(** C3 (what the code does). On a table whose CRUD_MAX_TOTAL_FILES slots
    all hold non-empty names, [crud_open] of a valid name that is not in
    the table does not return -1: its search for an empty slot has no
    bound and reads slot CRUD_MAX_TOTAL_FILES, outside the table. *)
Theorem crud_open_full_table_overruns (path : string) (st st0 : State World) :
  full_size st ->
  initialize st = (true, st0) ->
  0 < Z.of_nat (String.length path) <= CRUD_MAX_PATH_LENGTH ->
  Forall (fun e => filename e <> ""%string /\ filename e <> path) (crud_file_table st) ->
  crud_open path st = OutOfBounds CRUD_MAX_TOTAL_FILES.
Proof.
  intros Hsize Hi Hpath Hall. unfold crud_open. rewrite Hi. cbn [negb].
  apply initialize_spec in Hi. destruct Hi as [Ht _]. rewrite Ht.
  destruct ((Z.of_nat (String.length path) >? CRUD_MAX_PATH_LENGTH)
            || (Z.of_nat (String.length path) <=? 0)) eqn:Hguard.
  { apply orb_true_iff in Hguard. destruct Hguard as [Hg | Hg].
    - apply Z.gtb_lt in Hg. lia.
    - apply Z.leb_le in Hg. lia. }
  rewrite find_name_absent.
  - rewrite Z.eqb_refl. rewrite find_vacant_none.
    + f_equal. exact Hsize.
    + eapply Forall_impl; [ | exact Hall]. cbv beta. intros e [Hne _]. exact Hne.
  - eapply Forall_impl; [ | exact Hall]. cbv beta. intros e [_ Hne]. exact Hne.
  - exact Hsize.
Qed.

(** *** Buffers across an exchange *)

Lemma overlay_length (A : Type) (incoming old : list A) :
  List.length (overlay incoming old) = List.length old.
Proof.
  unfold overlay. rewrite length_firstn, length_app, length_skipn. lia.
Qed.

Lemma malloc_length (size : Z) (w : World) :
  List.length (malloc size w) = Z.to_nat size.
Proof. unfold malloc. rewrite length_map, length_seq. reflexivity. Qed.

(** The operation code [crud_receive] reads off a response is the one
    [parse_CrudResponse] yields. *)
Lemma response_req (response : CrudResponse) :
  Z.land (Z.shiftr (uint64 response) 28) 15
  = Codec.req (parse_CrudResponse response).
Proof.
  unfold parse_CrudResponse, Codec.parse_CrudResponse. cbn [Codec.req].
  rewrite (proj1 (land_low_bits _)). unfold uint8. symmetry. apply Z.mod_small.
  pose proof (Z.mod_pos_bound (Z.shiftr (uint64 response) 28) (2 ^ 4)). lia.
Qed.

(** A call leaves the buffer as it was, or, when the response carries the
    READ code, with the cells read from the socket written over it. *)
Lemma crud_client_operation_buffer (k : buf_kind) (op : CrudRequest) (buf buf' : buffer k)
    (w w' : World) (r : CrudResponse) :
  crud_client_operation op buf w = (r, buf', w') ->
  buf' = buf
  \/ (Codec.req (parse_CrudResponse r) = CRUD_READ
      /\ exists len w1, buf' = store_buf k (fst (sock_read_buf k len w1)) buf).
Proof.
  unfold crud_client_operation. intros H.
  match type of H with
  | context [if ?c then sock_connect w else _] => destruct c
  end.
  - destruct (sock_connect w) as [connected w0].
    destruct connected; cbn [negb] in H.
    + unfold crud_send, crud_receive in H. cbv zeta in H.
      change (negb (0 =? 0)) with false in H. cbv iota in H.
      match type of H with
      | context [sock_read_response ?x] =>
          destruct (sock_read_response x) as [response w1]
      end.
      rewrite response_req in H.
      destruct (Codec.req (parse_CrudResponse response) =? CRUD_READ) eqn:Hreq.
      * apply Z.eqb_eq in Hreq.
        match type of H with
        | context [sock_read_buf k ?len ?x] =>
            destruct (sock_read_buf k len x) as [data w2] eqn:Hdata
        end.
        split_pair H. subst. right. split; [exact Hreq | ].
        eexists. eexists. rewrite Hdata. reflexivity.
      * split_pair H. subst. left. reflexivity.
    + split_pair H. subst. left. reflexivity.
  - cbn [negb] in H.
    unfold crud_send, crud_receive in H. cbv zeta in H.
    change (negb (0 =? 0)) with false in H. cbv iota in H.
    match type of H with
    | context [sock_read_response ?x] =>
        destruct (sock_read_response x) as [response w1]
    end.
    rewrite response_req in H.
    destruct (Codec.req (parse_CrudResponse response) =? CRUD_READ) eqn:Hreq.
    * apply Z.eqb_eq in Hreq.
      match type of H with
      | context [sock_read_buf k ?len ?x] =>
          destruct (sock_read_buf k len x) as [data w2] eqn:Hdata
      end.
      split_pair H. subst. right. split; [exact Hreq | ].
      eexists. eexists. rewrite Hdata. reflexivity.
    * split_pair H. subst. left. reflexivity.
Qed.

Lemma exchange_buffer (k : buf_kind) (op : CrudRequest) (buf buf' : buffer k)
    (n n' : Net World) (r : CrudResponse) :
  exchange op buf n = (r, buf', n') ->
  buf' = buf
  \/ (Codec.req (parse_CrudResponse r) = CRUD_READ
      /\ exists len w1, buf' = store_buf k (fst (sock_read_buf k len w1)) buf).
Proof.
  unfold exchange. intros H.
  destruct (crud_client_operation op buf (socket n)) as [[response b] w] eqn:Hop.
  split_pair H. subst. exact (crud_client_operation_buffer _ _ _ _ _ _ _ Hop).
Qed.

Lemma exchange_bytes_length (op : CrudRequest) (buf buf' : list byte)
    (n n' : Net World) (r : CrudResponse) :
  exchange (k := ByteBuf) op buf n = (r, buf', n') ->
  List.length buf' = List.length buf.
Proof.
  intros H. apply exchange_buffer in H.
  destruct H as [H | (_ & len & w1 & H)]; subst buf'; [reflexivity | ].
  cbn [store_buf]. apply overlay_length.
Qed.

(** *** Slots *)

Lemma nth_error_set_nth (A : Type) (l : list A) (i j : nat) (x : A) :
  nth_error (set_nth i x l) j
  = if Nat.eqb i j then option_map (fun _ => x) (nth_error l j) else nth_error l j.
Proof.
  revert i j. induction l as [ | h t IH]; intros i j.
  - destruct i as [ | i]; destruct j as [ | j]; cbn;
      try destruct (Nat.eqb i j); reflexivity.
  - destruct i as [ | i]; destruct j as [ | j]; cbn; try reflexivity. apply IH.
Qed.

Lemma slot_set_slot_same (tbl : list CrudFileAllocationType) (fh : Z)
    (e e' : CrudFileAllocationType) :
  slot tbl fh = Some e -> slot (set_slot tbl fh e') fh = Some e'.
Proof.
  unfold slot, set_slot. destruct (fh <? 0); [discriminate | ].
  intros H. rewrite nth_error_set_nth, Nat.eqb_refl, H. reflexivity.
Qed.

Lemma slot_set_slot_other (tbl : list CrudFileAllocationType) (fh i : Z)
    (e' : CrudFileAllocationType) :
  i <> fh -> slot (set_slot tbl fh e') i = slot tbl i.
Proof.
  unfold slot, set_slot. intros Hne.
  destruct (i <? 0) eqn:Hi; [reflexivity | ].
  destruct (fh <? 0) eqn:Hfh; [reflexivity | ].
  rewrite nth_error_set_nth.
  destruct (Nat.eqb (Z.to_nat fh) (Z.to_nat i)) eqn:Heq; [ | reflexivity].
  apply Nat.eqb_eq in Heq. apply Z.ltb_ge in Hi, Hfh. lia.
Qed.

Lemma handle_in_range (fd : Z) :
  0 <= fd < CRUD_MAX_TOTAL_FILES ->
  (fd >=? CRUD_MAX_TOTAL_FILES) || (fd <? 0) = false.
Proof.
  intros H. apply orb_false_iff. split.
  - rewrite Z.geb_leb. apply Z.leb_gt. lia.
  - apply Z.ltb_ge. lia.
Qed.

(** *** crud_read *)

(** C5. For an open handle whose position p lies within the length L of
    its object, and a count c >= 0: when the READ of the object succeeds,
    [crud_read] copies min(c, L-p) bytes, those from offset p of the object
    read, to the start of the output buffer (the rest of the buffer is
    kept), advances the position by that amount and returns that amount.
    A count beyond the bytes that remain is not an error: L-p is returned
    and the position becomes L. *)
Theorem crud_read_short (fd count : Z) (buf object : list byte)
    (st st0 : State World) (e : CrudFileAllocationType)
    (response : CrudResponse) (n : Net World) :
  initialize st = (true, st0) ->
  0 <= fd < CRUD_MAX_TOTAL_FILES ->
  slot (crud_file_table st) fd = Some e ->
  open e <> 0 ->
  0 <= count < 2 ^ 31 ->
  0 <= position e <= length e ->
  length e < 2 ^ 32 ->
  fetch e (net st0) = (response, object, n) ->
  Codec.res (parse_CrudResponse response) <> 1 ->
  let copied := Z.min count (length e - position e) in
  let bytes := firstn (Z.to_nat copied) (skipn (Z.to_nat (position e)) object) in
  crud_read fd buf count st
  = Returns (copied, bytes ++ skipn (Z.to_nat copied) buf,
             with_table (with_net st0 n)
               (set_slot (crud_file_table st) fd
                  {| filename := filename e; object_id := object_id e;
                     position := position e + copied; length := length e;
                     open := open e |}))
  /\ Z.of_nat (List.length bytes) = copied
  /\ (length e - position e < count ->
      copied = length e - position e /\ position e + copied = length e).
Proof.
  intros Hi Hfd He Hopen Hcount Hpos Hlen Hfetch Hres copied bytes.
  assert (Hobject : List.length object = Z.to_nat (length e)).
  { unfold fetch in Hfetch. apply exchange_bytes_length in Hfetch.
    rewrite Hfetch. apply malloc_length. }
  split; [ | split].
  - unfold crud_read. rewrite Hi. cbn [negb].
    apply initialize_spec in Hi. destruct Hi as [Ht _]. rewrite Ht.
    rewrite (handle_in_range fd Hfd).
    replace (count <? 0) with false by (symmetry; apply Z.ltb_ge; lia).
    rewrite He.
    replace (open e =? 0) with false by (symmetry; apply Z.eqb_neq; exact Hopen).
    unfold fetch in Hfetch. rewrite Hfetch.
    replace (Codec.res (parse_CrudResponse response) =? 1) with false
      by (symmetry; apply Z.eqb_neq; exact Hres).
    cbn [crud_file_table with_net net]. rewrite ?Ht.
    unfold uint32. change (2 ^ 31) with 2147483648 in Hcount.
    change (2 ^ 32) with 4294967296 in Hlen.
    rewrite (Z.mod_small count), (Z.mod_small (length e - position e)) by lia.
    unfold memcpy. cbn [Z.to_nat firstn app Z.add]. subst bytes copied.
    destruct (count >? length e - position e) eqn:Hshort.
    + apply Z.gtb_lt in Hshort. rewrite Z.min_r by lia.
      unfold int32, uint32. rewrite (Z.mod_small (length e - position e)) by lia.
      replace (length e - position e <? 2147483648) with true
        by (symmetry; apply Z.ltb_lt; lia).
      replace (position e + (length e - position e)) with (length e) by lia.
      reflexivity.
    + rewrite Z.gtb_ltb in Hshort. apply Z.ltb_ge in Hshort. rewrite Z.min_l by lia.
      rewrite (Z.mod_small (position e + count)) by lia. reflexivity.
  - subst bytes. rewrite length_firstn, length_skipn, Hobject. subst copied. lia.
  - intros Hshort. subst copied. rewrite Z.min_r by lia. lia.
Qed.

(** *** The in-place write *)

Lemma memcpy_nth (dst src : list byte) (off n : Z) (i : nat) :
  0 <= off -> 0 <= n ->
  off + n <= Z.of_nat (List.length dst) -> n <= Z.of_nat (List.length src) ->
  nth_error (memcpy dst off src n) i
  = if (off <=? Z.of_nat i) && (Z.of_nat i <? off + n)
    then nth_error src (i - Z.to_nat off)
    else nth_error dst i.
Proof.
  intros Hoff Hn Hdst Hsrc. unfold memcpy.
  assert (L1 : List.length (firstn (Z.to_nat off) dst) = Z.to_nat off)
    by (rewrite length_firstn; lia).
  assert (L2 : List.length (firstn (Z.to_nat n) src) = Z.to_nat n)
    by (rewrite length_firstn; lia).
  destruct (off <=? Z.of_nat i) eqn:Hlo; cbn [andb].
  - apply Z.leb_le in Hlo. rewrite nth_error_app2 by lia. rewrite L1.
    destruct (Z.of_nat i <? off + n) eqn:Hhi.
    + apply Z.ltb_lt in Hhi. rewrite nth_error_app1 by lia.
      rewrite nth_error_firstn.
      replace (i - Z.to_nat off <? Z.to_nat n)%nat with true
        by (symmetry; apply Nat.ltb_lt; lia).
      reflexivity.
    + apply Z.ltb_ge in Hhi. rewrite nth_error_app2 by lia. rewrite L2.
      rewrite nth_error_skipn. f_equal. lia.
  - apply Z.leb_gt in Hlo. rewrite nth_error_app1 by lia.
    rewrite nth_error_firstn.
    replace (i <? Z.to_nat off)%nat with true by (symmetry; apply Nat.ltb_lt; lia).
    reflexivity.
Qed.

(** C8. In a [crud_write] on an assigned object with position+count within
    the length, a success leaves the length and the object identifier of
    the entry, its name and its open flag as they were and moves the
    position by [count]; the other slots are untouched; the last request
    of the call is the UPDATE of the same object with the same length,
    carrying the object read with [buf] written at [position,
    position+count) and every other byte kept. *)
Theorem crud_write_in_place (fd count : Z) (buf : list byte)
    (st st' : State World) (r : Z) (e : CrudFileAllocationType) :
  slot (crud_file_table st) fd = Some e ->
  object_id e <> 0 ->
  0 <= position e ->
  length e < 2 ^ 32 ->
  position e + count <= length e ->
  crud_write fd (Some buf) count st = Returns (r, st') ->
  r <> -1 ->
  slot (crud_file_table st') fd
  = Some {| filename := filename e; object_id := object_id e;
            position := position e + count; length := length e; open := open e |}
  /\ (forall i, i <> fd -> slot (crud_file_table st') i = slot (crud_file_table st) i)
  /\ exists (before : list Exchange) (read update : Exchange),
       during st st' = before ++ [read; update]
       /\ sent read = convert_to_CrudRequest (object_id e) CRUD_READ (length e) 0 0
       /\ sent update = convert_to_CrudRequest (object_id e) CRUD_UPDATE (length e) 0 0
       /\ List.length (received_bytes read) = Z.to_nat (length e)
       /\ sent_bytes update = memcpy (received_bytes read) (position e) buf count
       /\ (count <= Z.of_nat (List.length buf) ->
           forall i : nat,
             nth_error (sent_bytes update) i
             = if (position e <=? Z.of_nat i) && (Z.of_nat i <? position e + count)
               then nth_error buf (i - Z.to_nat (position e))
               else nth_error (received_bytes read) i).
Proof.
  intros He Hid Hpos Hlen Hfit Hw Hr. unfold crud_write in Hw.
  destruct (initialize st) as [ok st0] eqn:Hi.
  apply initialize_spec in Hi. destruct Hi as (Ht & xs0 & Hl & _).
  destruct ok; cbn [negb] in Hw; [ | returned Hw; congruence].
  destruct (count <? 0) eqn:Hcount; [returned Hw; congruence | ].
  apply Z.ltb_ge in Hcount.
  destruct ((fd >=? CRUD_MAX_TOTAL_FILES) || (fd <? 0)); [returned Hw; congruence | ].
  rewrite Ht, He in Hw.
  destruct (open e =? 0); [returned Hw; congruence | ].
  replace (object_id e =? 0) with false in Hw by (symmetry; apply Z.eqb_neq; exact Hid).
  next_exchange Hw readResponse readBuf n1 Hx1.
  destruct (Codec.res (parse_CrudResponse readResponse) =? 1);
    [returned Hw; congruence | ].
  change (2 ^ 32) with 4294967296 in Hlen.
  unfold uint32 in Hw. rewrite (Z.mod_small (position e + count)) in Hw by lia.
  replace (position e + count >? length e) with false in Hw
    by (symmetry; rewrite Z.gtb_ltb; apply Z.ltb_ge; lia).
  next_exchange Hw updated b2 n2 Hx2.
  destruct (Codec.res (parse_CrudResponse updated) =? 1);
    [returned Hw; congruence | ].
  returned Hw. subst r st'. cbn [crud_file_table with_table with_net net].
  rewrite Ht. split; [ | split].
  - apply (slot_set_slot_same _ _ e). exact He.
  - intros i Hne. apply slot_set_slot_other. exact Hne.
  - apply exchange_bytes_length in Hx1. rewrite malloc_length in Hx1.
    exists xs0. eexists. eexists.
    split; [ | split; [ | split; [ | split; [ | split]]]].
    + apply during_app. cbn [net with_table with_net]. rewrite Hl1, Hl0, Hl.
      rewrite <- !app_assoc. reflexivity.
    + reflexivity.
    + reflexivity.
    + exact Hx1.
    + reflexivity.
    + intros Hbuf i. cbn [sent_bytes received_bytes]. apply memcpy_nth; lia.
Qed.

(** *** Every entry point keeps the positions within the lengths *)

Lemma Forall_set_nth (A : Type) (P : A -> Prop) (l : list A) (i : nat) (x : A) :
  Forall P l -> P x -> Forall P (set_nth i x l).
Proof.
  intros Hl Hx. revert i. induction Hl as [ | h t Hh Ht IH]; intros i.
  - destruct i; constructor.
  - destruct i as [ | i]; cbn [set_nth]; constructor; auto.
Qed.

Lemma Forall_set_slot (P : CrudFileAllocationType -> Prop)
    (tbl : list CrudFileAllocationType) (fh : Z) (e : CrudFileAllocationType) :
  Forall P tbl -> P e -> Forall P (set_slot tbl fh e).
Proof.
  intros Hl He. unfold set_slot. destruct (fh <? 0); [exact Hl | ].
  apply Forall_set_nth; assumption.
Qed.

Lemma Forall_slot (P : CrudFileAllocationType -> Prop)
    (tbl : list CrudFileAllocationType) (fh : Z) (e : CrudFileAllocationType) :
  Forall P tbl -> slot tbl fh = Some e -> P e.
Proof.
  intros Hl He. unfold slot in He. destruct (fh <? 0); [discriminate | ].
  rewrite Forall_forall in Hl. apply Hl. eapply nth_error_In. exact He.
Qed.

Lemma follows_refl (D : Prop) (st : State World) : follows D st st.
Proof.
  split; [reflexivity | ]. split; [exists []; rewrite app_nil_r; reflexivity | ].
  intros _ H. exact H.
Qed.

Lemma Forall_firstn_of (A : Type) (P : A -> Prop) (l : list A) (n : nat) :
  Forall P l -> Forall P (firstn n l).
Proof.
  intros Hl. revert n. induction Hl as [ | h t Hh Ht IH]; intros n.
  - rewrite firstn_nil. constructor.
  - destruct n; cbn [firstn]; constructor; auto.
Qed.

Lemma Forall_skipn_of (A : Type) (P : A -> Prop) (l : list A) (n : nat) :
  Forall P l -> Forall P (skipn n l).
Proof.
  intros Hl. revert n. induction Hl as [ | h t Hh Ht IH]; intros n.
  - rewrite skipn_nil. constructor.
  - destruct n; cbn [skipn]; [constructor | ]; auto.
Qed.

Lemma overlay_Forall (A : Type) (P : A -> Prop) (incoming old : list A) :
  Forall P incoming -> Forall P old -> Forall P (overlay incoming old).
Proof.
  intros Hi Ho. unfold overlay. apply Forall_firstn_of. apply Forall_app.
  split; [exact Hi | apply Forall_skipn_of; exact Ho].
Qed.

Lemma exchange_table_ok (op : CrudRequest) (tbl tbl' : list CrudFileAllocationType)
    (n n' : Net World) (r : CrudResponse) :
  exchange (k := TableBuf) op tbl n = (r, tbl', n') ->
  delivers_ok -> Forall slot_ok tbl -> Forall slot_ok tbl'.
Proof.
  intros H Hd Hok. apply exchange_buffer in H.
  destruct H as [H | (_ & len & w1 & H)]; subst tbl'; [exact Hok | ].
  cbn [store_buf]. apply overlay_Forall; [apply Hd | exact Hok].
Qed.

Lemma clear_slots_Forall (P : CrudFileAllocationType -> Prop) (n : nat) (i : Z)
    (tbl : list CrudFileAllocationType) :
  P vacant -> Forall P tbl -> Forall P (clear_slots n i tbl).
Proof.
  intros Hv. revert i tbl. induction n as [ | n IH]; intros i tbl Hl; cbn [clear_slots].
  - exact Hl.
  - apply IH. apply Forall_set_slot; assumption.
Qed.

Lemma vacant_ok : slot_ok vacant.
Proof. unfold slot_ok, vacant. cbn. lia. Qed.

End FileLayer.

(** Tests of the code as facts about integers. *)
Ltac tests :=
  repeat match goal with
         | H : (_ || _) = false |- _ =>
             apply orb_false_iff in H; destruct H
         | H : (_ >? _) = false |- _ => rewrite Z.gtb_ltb in H
         | H : (_ >? _) = true |- _ => rewrite Z.gtb_ltb in H
         | H : (_ >=? _) = false |- _ => rewrite Z.geb_leb in H
         | H : (_ <? _) = false |- _ => apply Z.ltb_ge in H
         | H : (_ <? _) = true |- _ => apply Z.ltb_lt in H
         | H : (_ <=? _) = false |- _ => apply Z.leb_gt in H
         | H : (_ <=? _) = true |- _ => apply Z.leb_le in H
         | H : (_ =? _) = false |- _ => apply Z.eqb_neq in H
         | H : (_ =? _) = true |- _ => apply Z.eqb_eq in H
         end.

(** The end of a branch of an entry point: the state reached follows the
    state after the CRUD_INIT block. *)
Ltac branch_follows :=
  first
    [ apply follows_refl
    | split; [reflexivity | ];
      split;
      [ first [ eexists; history
              | exists []; cbn [FileIO.net FileIO.with_net FileIO.with_table];
                rewrite app_nil_r; reflexivity ]
      | let Hd := fresh "Hd" in
        let Hok := fresh "Hok" in
        intros Hd Hok; unfold FileIO.table_ok in *;
        cbn [FileIO.crud_file_table FileIO.with_net FileIO.with_table] in *;
        repeat match goal with
               | Hx : FileIO.exchange (k := FileIO.TableBuf) _ _ _ = _ |- _ =>
                   apply exchange_table_ok in Hx;
                   [ | exact Hd | first [ assumption
                                        | apply clear_slots_Forall;
                                          [apply vacant_ok | assumption] ] ]
               end;
        first
          [ assumption
          | apply Forall_set_slot; [assumption | ];
            repeat match goal with
                   | He : FileIO.slot _ _ = Some _ |- _ =>
                       apply (Forall_slot _ _ _ _ Hok) in He
                   end;
            unfold FileIO.slot_ok in *;
            cbn [FileIO.position FileIO.length] in *;
            tests; unfold uint32 in *; Z.div_mod_to_equations; lia ] ] ].

Section Entries.

Import FileIO.

Context {World : Type} {platform : Platform World} {config : Config}.

Lemma crud_seek_follows (fd loc : Z) (st st' : State World) (r : Z) :
  crud_seek fd loc st = Returns (r, st') ->
  exists ok st0, initialize st = (ok, st0) /\ follows True st0 st'.
Proof.
  unfold crud_seek. intros H.
  destruct (initialize st) as [ok st0] eqn:Hi. exists ok, st0.
  split; [reflexivity | ].
  walk H; try discriminate H; returned H; subst r st'; branch_follows.
Qed.

Lemma crud_close_follows (fh : Z) (st st' : State World) (r : Z) :
  crud_close fh st = Returns (r, st') ->
  exists ok st0, initialize st = (ok, st0) /\ follows True st0 st'.
Proof.
  unfold crud_close. intros H.
  destruct (initialize st) as [ok st0] eqn:Hi. exists ok, st0.
  split; [reflexivity | ].
  walk H; try discriminate H; returned H; subst r st'; branch_follows.
Qed.

Lemma crud_read_follows (fd count : Z) (buf buf' : list byte)
    (st st' : State World) (r : Z) :
  crud_read fd buf count st = Returns (r, buf', st') ->
  exists ok st0, initialize st = (ok, st0) /\ follows True st0 st'.
Proof.
  unfold crud_read. intros H.
  destruct (initialize st) as [ok st0] eqn:Hi. exists ok, st0.
  split; [reflexivity | ].
  walk H; try discriminate H; returned H; subst r st'; branch_follows.
Qed.

Lemma crud_write_follows (fd count : Z) (buf : option (list byte))
    (st st' : State World) (r : Z) :
  crud_write fd buf count st = Returns (r, st') ->
  exists ok st0, initialize st = (ok, st0) /\ follows True st0 st'.
Proof.
  unfold crud_write. intros H.
  destruct (initialize st) as [ok st0] eqn:Hi. exists ok, st0.
  split; [reflexivity | ].
  destruct buf as [buf | ];
    walk H; try discriminate H; returned H; subst r st'; branch_follows.
Qed.

Lemma crud_open_follows (path : string) (st st' : State World) (r : Z) :
  crud_open path st = Returns (r, st') ->
  exists ok st0, initialize st = (ok, st0) /\ follows True st0 st'.
Proof.
  unfold crud_open. intros H.
  destruct (initialize st) as [ok st0] eqn:Hi. exists ok, st0.
  split; [reflexivity | ].
  walk H; try discriminate H; returned H; subst r st'; branch_follows.
Qed.

Lemma crud_format_follows (st st' : State World) (r : Z) :
  crud_format st = (r, st') ->
  exists ok st0, initialize st = (ok, st0) /\ follows delivers_ok st0 st'.
Proof.
  unfold crud_format. intros H.
  destruct (initialize st) as [ok st0] eqn:Hi. exists ok, st0.
  split; [reflexivity | ].
  walk H; split_pair H; subst r st'; branch_follows.
Qed.

Lemma crud_mount_follows (st st' : State World) (r : Z) :
  crud_mount st = (r, st') ->
  exists ok st0, initialize st = (ok, st0) /\ follows delivers_ok st0 st'.
Proof.
  unfold crud_mount. intros H.
  destruct (initialize st) as [ok st0] eqn:Hi. exists ok, st0.
  split; [reflexivity | ].
  walk H; split_pair H; subst r st'; branch_follows.
Qed.

Lemma crud_unmount_follows (st st' : State World) (r : Z) :
  crud_unmount st = (r, st') -> follows delivers_ok st st'.
Proof.
  unfold crud_unmount. intros H.
  walk H; split_pair H; subst r st'; branch_follows.
Qed.

Lemma follows_weaken (D : Prop) (st0 st' : State World) :
  follows True st0 st' -> follows D st0 st'.
Proof.
  intros (Hflag & Hxs & Hok). split; [exact Hflag | ]. split; [exact Hxs | ].
  intros _. exact (Hok I).
Qed.

(** A call of the file layer starts with the CRUD_INIT block and continues
    from the state that block leaves, whatever the store delivers. *)
Lemma perform_file_call (c : Call) (st st' : State World) (r : Z) :
  file_call c = true ->
  perform c st = Returns (r, st') ->
  exists ok st0, initialize st = (ok, st0) /\ follows True st0 st'.
Proof.
  intros Hc H. destruct c; cbn [perform file_call] in *; try discriminate Hc.
  - exact (crud_open_follows _ _ _ _ H).
  - exact (crud_close_follows _ _ _ _ H).
  - destruct (crud_read fd buf count st) as [[[r0 buf'] st0] | i] eqn:Hr;
      [ | discriminate H].
    returned H. subst. exact (crud_read_follows _ _ _ _ _ _ _ Hr).
  - exact (crud_write_follows _ _ _ _ _ _ H).
  - exact (crud_seek_follows _ _ _ _ _ H).
Qed.

(** Every call other than [crud_unmount] starts with the CRUD_INIT block
    and continues from the state that block leaves. *)
Lemma perform_follows (c : Call) (st st' : State World) (r : Z) :
  perform c st = Returns (r, st') ->
  (c = Unmount /\ follows delivers_ok st st')
  \/ (c <> Unmount
      /\ exists ok st0, initialize st = (ok, st0) /\ follows delivers_ok st0 st').
Proof.
  intros H. destruct (file_call c) eqn:Hc.
  - right. split; [intros Hu; subst c; discriminate Hc | ].
    destruct (perform_file_call c st st' r Hc H) as (ok & st0 & Hi & Hf).
    exists ok, st0. split; [exact Hi | apply follows_weaken; exact Hf].
  - destruct c; cbn [file_call] in Hc; try discriminate Hc; cbn [perform] in H;
      apply Returns_inj in H.
    + right. split; [discriminate | ]. exact (crud_format_follows _ _ _ H).
    + right. split; [discriminate | ]. exact (crud_mount_follows _ _ _ H).
    + left. split; [reflexivity | ]. exact (crud_unmount_follows _ _ _ H).
Qed.

(** C10. The positions stay within the lengths: [0 <= position <= length]
    holds in every slot when the program starts; every call of open,
    close, read, write and seek that returns, successful or not, keeps it,
    whatever the store answers; and so do format, mount and unmount, hence
    every session, when the tables the socket delivers satisfy it (mount
    loads the table from the store as it comes). *)
Theorem position_within_length (w : World) (cs : list Call) (st st' : State World) :
  table_ok st ->
  table_ok (boot w)
  /\ (forall (c : Call) (r : Z) (st1 : State World),
        file_call c = true -> perform c st = Returns (r, st1) -> table_ok st1)
  /\ (delivers_ok ->
      (forall (c : Call) (r : Z) (st1 : State World),
         perform c st = Returns (r, st1) -> table_ok st1)
      /\ (session cs st = Returns st' -> table_ok st')).
Proof.
  intros Hok. split; [ | split].
  - unfold table_ok, boot. cbn [crud_file_table]. apply Forall_forall.
    intros e He. apply repeat_spec in He. subst e. apply vacant_ok.
  - intros c r st1 Hc Hp.
    destruct (perform_file_call c st st1 r Hc Hp) as (ok & st0 & Hi & Hf).
    destruct Hf as (_ & _ & Hf). apply (Hf I).
    apply initialize_spec in Hi. destruct Hi as [Ht _].
    unfold table_ok in *. rewrite Ht. exact Hok.
  - intros Hd.
    assert (Hstep : forall (c : Call) (r : Z) (s s1 : State World),
               table_ok s -> perform c s = Returns (r, s1) -> table_ok s1).
    { intros c r s s1 Hs Hp. apply perform_follows in Hp.
      destruct Hp as [[_ Hf] | (_ & ok & s0 & Hi & Hf)].
      - destruct Hf as (_ & _ & Hf). exact (Hf Hd Hs).
      - destruct Hf as (_ & _ & Hf). apply (Hf Hd).
        apply initialize_spec in Hi. destruct Hi as [Ht _].
        unfold table_ok in *. rewrite Ht. exact Hs. }
    split.
    + intros c r st1 Hp. exact (Hstep c r st st1 Hok Hp).
    + revert st Hok. induction cs as [ | c cs IH]; intros st Hok Hs; cbn [session] in Hs.
      * apply Returns_inj in Hs. subst st'. exact Hok.
      * destruct (perform c st) as [[r st1] | i] eqn:Hp; [ | discriminate Hs].
        apply (IH st1); [ | exact Hs]. exact (Hstep c r st st1 Hok Hp).
Qed.

(** C7 (as the code has it). [crud_unmount] tests [InitFlag] only: while
    it is 0 the call returns the error value (65535, the [-1] of a
    [uint16_t] function) with the state untouched, so no UPDATE and no
    CLOSE is made; once it is not 0 the call goes on to the UPDATE of the
    table.  The flag is set by the block at the head of every other entry
    point (format, mount, open, close, read, write, seek): a call that
    returns leaves it set as soon as that block succeeded, whatever
    became of the requests the call made afterwards, and whether or not a
    mount or a format came before.  Read on the history: when the flag
    was 0 the first request of such a call is the CRUD_INIT, and its
    answer alone decides; the flag is set exactly when that answer
    carries no error bit. *)
Theorem crud_unmount_needs_InitFlag (st : State World) :
  (InitFlag st = 0 -> crud_unmount st = (65535, st))
  /\ (InitFlag st <> 0 ->
      exists (update : Exchange) (rest : list Exchange),
        during st (snd (crud_unmount st)) = update :: rest
        /\ sent update
           = convert_to_CrudRequest 0 CRUD_UPDATE table_size CRUD_PRIORITY_OBJECT 0)
  /\ (forall (c : Call) (r : Z) (st' st0 : State World),
        c <> Unmount ->
        perform c st = Returns (r, st') ->
        initialize st = (true, st0) ->
        InitFlag st' <> 0)
  /\ (forall (c : Call) (r : Z) (st' : State World),
        c <> Unmount ->
        perform c st = Returns (r, st') ->
        InitFlag st = 0 ->
        exists (first : Exchange) (rest : list Exchange),
          during st st' = first :: rest
          /\ sent first = convert_to_CrudRequest 0 CRUD_INIT 0 0 0
          /\ (InitFlag st' <> 0 <-> ~ failed first)).
Proof.
  split; [ | split; [ | split] ].
  - intros H0. unfold crud_unmount. rewrite H0. reflexivity.
  - intros Hne. unfold crud_unmount.
    replace (InitFlag st =? 0) with false by (symmetry; apply Z.eqb_neq; exact Hne).
    destruct (exchange _ _ _) as [[updated tbl] n1] eqn:Hx1.
    apply exchange_issued in Hx1.
    destruct (Codec.res (parse_CrudResponse updated) =? 1).
    + cbn [snd]. eexists. exists []. split.
      * apply during_app. cbn [net with_net]. exact Hx1.
      * reflexivity.
    + destruct (exchange _ _ _) as [[closed u] n2] eqn:Hx2.
      apply exchange_issued in Hx2. cbn [net with_net with_table] in Hx2.
      eexists. eexists. split.
      * apply during_app.
        destruct (Codec.res (parse_CrudResponse closed) =? 1);
          cbn [snd net with_net with_table]; rewrite Hx2, Hx1, <- app_assoc;
          reflexivity.
      * reflexivity.
  - intros c r st' st0 Hc Hp Hinit. apply perform_follows in Hp.
    destruct Hp as [[Hu _] | (_ & ok & s0 & Hi & Hf)]; [contradiction | ].
    rewrite Hinit in Hi. split_pair Hi. subst ok s0.
    destruct Hf as (Hflag & _). rewrite Hflag.
    apply initialize_spec in Hinit. destruct Hinit as (_ & xs0 & _ & _ & Hok).
    apply (Hok eq_refl).
  - intros c r st' Hc Hp H0. apply perform_follows in Hp.
    destruct Hp as [[Hu _] | (_ & ok & s0 & Hi & Hf)]; [contradiction | ].
    destruct Hf as (Hflag & (xs & Hxs) & _).
    pose proof (initialize_first st s0 ok H0 Hi) as (x & Hl & Hsent & Hgood).
    apply initialize_spec in Hi. destruct Hi as (_ & xs0 & _ & Hko & Hok).
    exists x, xs. split; [ | split; [exact Hsent | ] ].
    + apply during_app. rewrite Hxs, Hl, <- app_assoc. reflexivity.
    + rewrite Hflag. rewrite <- Hgood. destruct ok.
      * split; [reflexivity | ]. intros _. apply (Hok eq_refl).
      * split; [ | discriminate]. intros Hne. exfalso.
        destruct (Hko eq_refl) as [Hsame _]. rewrite Hsame in Hne. contradiction.
Qed.

(** *** crud_format *)

Lemma set_nth_middle (A : Type) (pre rest : list A) (e x : A) :
  set_nth (List.length pre) x (pre ++ e :: rest) = pre ++ x :: rest.
Proof.
  induction pre as [ | h t IH]; cbn [List.length app set_nth].
  - reflexivity.
  - rewrite IH. reflexivity.
Qed.

Lemma clear_slots_app (pre rest : list CrudFileAllocationType) :
  clear_slots (List.length rest) (Z.of_nat (List.length pre)) (pre ++ rest)
  = pre ++ repeat vacant (List.length rest).
Proof.
  revert pre. induction rest as [ | e rest IH]; intros pre;
    cbn [List.length clear_slots repeat].
  - reflexivity.
  - unfold set_slot.
    replace (Z.of_nat (List.length pre) <? 0) with false
      by (symmetry; apply Z.ltb_ge; lia).
    rewrite Nat2Z.id, set_nth_middle.
    replace (pre ++ vacant :: rest) with ((pre ++ [vacant]) ++ rest)
      by (rewrite <- app_assoc; reflexivity).
    replace (Z.of_nat (List.length pre) + 1)
      with (Z.of_nat (List.length (pre ++ [vacant])))
      by (rewrite length_app; cbn [List.length]; lia).
    rewrite IH, <- app_assoc. reflexivity.
Qed.

Lemma clear_slots_full (st : State World) :
  full_size st ->
  clear_slots (Z.to_nat CRUD_MAX_TOTAL_FILES) 0 (crud_file_table st)
  = repeat vacant (Z.to_nat CRUD_MAX_TOTAL_FILES).
Proof.
  unfold full_size. intros H. rewrite <- H, Nat2Z.id.
  exact (clear_slots_app [] (crud_file_table st)).
Qed.

(** C6 (as the code has it). [crud_format] returns the error value (65535,
    the [-1] of a [uint16_t] function) when CRUD_INIT, FORMAT or the CREATE
    of the table object fails.  When CRUD_INIT or FORMAT fails the file
    table is as before the call.  When FORMAT succeeded and the CREATE
    fails, the table has already been emptied and is left so: it is the
    buffer of the CREATE call, the all-empty table itself unless the
    response carried the READ code. *)
Theorem crud_format_failure (st : State World) :
  full_size st ->
  let empty := repeat vacant (Z.to_nat CRUD_MAX_TOTAL_FILES) in
  let '(ok, st0) := initialize st in
  let '(formatted, _, n1) :=
    exchange (k := NullBuf)
      (convert_to_CrudRequest 0 CRUD_FORMAT 0 CRUD_NULL_FLAG 0) tt (net st0) in
  let '(created, tbl, n2) :=
    exchange (k := TableBuf)
      (convert_to_CrudRequest 0 CRUD_CREATE table_size CRUD_PRIORITY_OBJECT 0)
      empty n1 in
  crud_file_table st0 = crud_file_table st
  /\ (ok = false -> crud_format st = (65535, st0))
  /\ (ok = true -> Codec.res (parse_CrudResponse formatted) = 1 ->
      crud_format st = (65535, with_net st0 n1))
  /\ (ok = true -> Codec.res (parse_CrudResponse formatted) <> 1 ->
      Codec.res (parse_CrudResponse created) = 1 ->
      crud_format st = (65535, with_net (with_table st0 tbl) n2)
      /\ (Codec.req (parse_CrudResponse created) <> CRUD_READ -> tbl = empty)).
Proof.
  intros Hsize empty. unfold crud_format.
  destruct (initialize st) as [ok st0] eqn:Hi.
  assert (Hsize0 := initialize_full_size _ _ _ Hi Hsize).
  apply initialize_spec in Hi. destruct Hi as [Ht _].
  destruct (exchange (k := NullBuf) _ tt (net st0)) as [[formatted u] n1] eqn:Hx1.
  destruct (exchange (k := TableBuf) _ empty n1) as [[created tbl] n2] eqn:Hx2.
  split; [exact Ht | ]. split; [ | split].
  - intros Hok. subst ok. reflexivity.
  - intros Hok Hres. subst ok. cbn [negb]. rewrite Hres. reflexivity.
  - intros Hok Hres Hres2. subst ok. cbn [negb].
    replace (Codec.res (parse_CrudResponse formatted) =? 1) with false
      by (symmetry; apply Z.eqb_neq; exact Hres).
    cbn [crud_file_table net with_net with_table].
    rewrite (clear_slots_full st0 Hsize0). fold empty. rewrite Hx2, Hres2.
    split; [reflexivity | ].
    intros Hreq. apply exchange_buffer in Hx2.
    destruct Hx2 as [Hsame | [Hread _]]; [exact Hsame | contradiction].
Qed.

End Entries.

(** ** Concrete runs *)

Section Runs.

Import FileIO.

Lemma parse_convert_round_trip_witness :
  Codec.parse_CrudResponse (Codec.convert_to_CrudRequest 7 3 100 1 0)
  = {| Codec.oID := 7; Codec.req := 3; Codec.length := 100;
       Codec.flags := 1; Codec.res := 0 |}.
Proof. apply parse_convert_round_trip; lia. Defined.

(** The grow case with a refused DELETE: -1, the table as before. *)
Lemma crud_write_all_or_nothing_witness :
  exists r st',
    Demo.crud_write 0 (Some [x01; x02; x03]) 3 Demo.growing = Returns (r, st')
    /\ (r = 3 \/ r = -1)
    /\ (Exists failed (during Demo.growing st') -> r = -1)
    /\ (r = -1 -> crud_file_table st' = crud_file_table Demo.growing).
Proof.
  apply (crud_write_all_or_nothing (platform := Demo.platform) (config := Demo.config)).
  reflexivity.
Defined.

(** C2, the claim refuted: after CREATE answered with object 9 and DELETE
    was refused, the call returns -1 and the entry still names object 7,
    not 9. *)
Lemma crud_write_grow_delete_failure_keeps_old_id :
  exists (st' : State Demo.Wire) (read create delete : Exchange),
    Demo.crud_write 0 (Some [x01; x02; x03]) 3 Demo.growing = Returns (-1, st')
    /\ during Demo.growing st' = [read; create; delete]
    /\ ~ failed create
    /\ Codec.oID (parse_CrudResponse (received create)) = 9
    /\ failed delete
    /\ option_map object_id (slot (crud_file_table st') 0) = Some 7
    /\ option_map object_id (slot (crud_file_table st') 0) <> Some 9.
Proof.
  eexists. eexists. eexists. eexists.
  split; [vm_compute; reflexivity | ].
  split; [vm_compute; reflexivity | ].
  split; [unfold failed; vm_compute; discriminate | ].
  split; [vm_compute; reflexivity | ].
  split; [vm_compute; reflexivity | ].
  split; [vm_compute; reflexivity | vm_compute; discriminate].
Qed.

Lemma crud_write_grow_delete_failure_witness :
  -1 = -1
  /\ slot (crud_file_table
             (Demo.after (Demo.crud_write 0 (Some [x01; x02; x03]) 3 Demo.growing) Demo.growing)) 0
     = Some (Demo.file "a" 7 2 4 1).
Proof.
  pose (st' := Demo.after (Demo.crud_write 0 (Some [x01; x02; x03]) 3 Demo.growing) Demo.growing).
  pose (xs := during Demo.growing st').
  apply (crud_write_grow_delete_failure (platform := Demo.platform) (config := Demo.config)
           0 [x01; x02; x03] 3 Demo.growing st' (-1) (Demo.file "a" 7 2 4 1)
           (firstn 1 xs) (nth 1 xs Demo.nothing) (nth 2 xs Demo.nothing)).
  - reflexivity.
  - discriminate.
  - vm_compute. reflexivity.
  - vm_compute. reflexivity.
  - vm_compute. reflexivity.
  - vm_compute. reflexivity.
  - unfold failed. vm_compute. discriminate.
  - vm_compute. reflexivity.
Defined.

Lemma crud_open_full_table_overruns_witness :
  Demo.crud_open "c" Demo.crowded = OutOfBounds 2.
Proof.
  apply (crud_open_full_table_overruns (platform := Demo.platform) (config := Demo.config)
           "c" Demo.crowded Demo.crowded).
  - reflexivity.
  - reflexivity.
  - vm_compute. split; [reflexivity | discriminate].
  - repeat constructor; discriminate.
Defined.

(** The short read of the design document: a 10-byte object at position 8,
    100 bytes asked; 2 bytes come back and the position is 10. *)
Lemma crud_read_short_witness :
  Demo.crud_read 0 [x00; x00; x00; x00] 100 Demo.reading
  = Returns (2, [x08; x09; x00; x00],
             Demo.after
               (match Demo.crud_read 0 [x00; x00; x00; x00] 100 Demo.reading with
                | Returns (r, _, st') => Returns (r, st')
                | OutOfBounds i => OutOfBounds i
                end) Demo.reading)
  /\ option_map position
       (slot (crud_file_table
                (Demo.after
                   (match Demo.crud_read 0 [x00; x00; x00; x00] 100 Demo.reading with
                    | Returns (r, _, st') => Returns (r, st')
                    | OutOfBounds i => OutOfBounds i
                    end) Demo.reading)) 0)
     = Some 10.
Proof.
  pose (e := Demo.file "a" 7 8 10 1).
  pose (f := fetch (platform := Demo.platform) (config := Demo.config)
               e (net Demo.reading)).
  destruct (crud_read_short (platform := Demo.platform) (config := Demo.config)
              0 100 [x00; x00; x00; x00] (snd (fst f)) Demo.reading Demo.reading e
              (fst (fst f)) (snd f)) as (Hread & Hbytes & Hshort).
  - reflexivity.
  - vm_compute. split; [discriminate | reflexivity].
  - reflexivity.
  - discriminate.
  - vm_compute. split; [discriminate | reflexivity].
  - vm_compute. split; discriminate.
  - vm_compute. reflexivity.
  - vm_compute. reflexivity.
  - vm_compute. discriminate.
  - split.
    + unfold Demo.crud_read. rewrite Hread. vm_compute. reflexivity.
    + vm_compute. reflexivity.
Defined.

(** C6, the claim refuted: FORMAT accepted, CREATE refused; the call
    returns the error value and the table, which held the file "a", is
    left with all slots empty. *)
Lemma crud_format_leaves_table_reset :
  exists st' : State Demo.Wire,
    Demo.crud_format Demo.formatting = (65535, st')
    /\ Exists failed (during Demo.formatting st')
    /\ crud_file_table Demo.formatting = [Demo.file "a" 7 2 4 1; vacant]
    /\ crud_file_table st' = [vacant; vacant]
    /\ crud_file_table st' <> crud_file_table Demo.formatting.
Proof.
  eexists.
  split; [vm_compute; reflexivity | ].
  split; [ | split; [reflexivity | split; [reflexivity | vm_compute; discriminate]]].
  apply Exists_cons_tl. apply Exists_cons_hd. vm_compute. reflexivity.
Qed.

Lemma crud_format_failure_witness :
  Demo.crud_format Demo.formatting
  = (65535, FileIO.with_table (snd (Demo.crud_format Demo.formatting)) [vacant; vacant]).
Proof.
  pose proof (crud_format_failure (platform := Demo.platform) (config := Demo.config)
                Demo.formatting eq_refl) as H.
  cbv zeta in H.
  destruct (initialize Demo.formatting) as [ok st0] eqn:Hi.
  destruct (exchange (k := NullBuf) _ tt (net st0)) as [[formatted u] n1] eqn:Hx1.
  destruct (exchange (k := TableBuf) _ _ n1) as [[created tbl] n2] eqn:Hx2.
  vm_compute in Hi. split_pair Hi. subst ok st0.
  vm_compute in Hx1. split_pair Hx1. subst formatted n1.
  vm_compute in Hx2. split_pair Hx2. subst created tbl n2.
  destruct H as (_ & _ & _ & H).
  destruct H as [H _]; [reflexivity | vm_compute; discriminate | vm_compute; reflexivity | ].
  unfold Demo.crud_format. rewrite H. vm_compute. reflexivity.
Defined.

(** C7, the claim refuted: with no mount and no format, an open that
    connected lets [crud_unmount] succeed, UPDATE and CLOSE being made. *)
Lemma crud_unmount_after_open_only :
  exists (st1 st2 : State Demo.Wire) (update close : Exchange),
    Demo.crud_open "a" Demo.fresh = Returns (0, st1)
    /\ Demo.crud_unmount st1 = (0, st2)
    /\ during st1 st2 = [update; close]
    /\ opcode update = 4
    /\ opcode close = 6
    /\ Forall (fun x => opcode x = 0) (issued (net st1)).
Proof.
  eexists. eexists. eexists. eexists.
  split; [vm_compute; reflexivity | ].
  split; [vm_compute; reflexivity | ].
  split; [vm_compute; reflexivity | ].
  split; [vm_compute; reflexivity | ].
  split; [vm_compute; reflexivity | ].
  repeat constructor.
Qed.

Lemma crud_unmount_needs_InitFlag_witness :
  Demo.crud_unmount Demo.fresh = (65535, Demo.fresh)
  /\ fst (Demo.crud_format Demo.refused) = 65535
  /\ InitFlag (snd (Demo.crud_format Demo.refused)) <> 0.
Proof.
  destruct (crud_unmount_needs_InitFlag (platform := Demo.platform)
              (config := Demo.config) Demo.fresh) as (Hzero & _ & _ & _).
  destruct (crud_unmount_needs_InitFlag (platform := Demo.platform)
              (config := Demo.config) Demo.refused) as (_ & _ & Hset & _).
  split; [ | split].
  - apply Hzero. reflexivity.
  - vm_compute. reflexivity.
  - apply (Hset Format 65535 (snd (Demo.crud_format Demo.refused))
             (snd (initialize (platform := Demo.platform) (config := Demo.config)
                     Demo.refused))).
    + discriminate.
    + vm_compute. reflexivity.
    + vm_compute. reflexivity.
Defined.

(** Two bytes written at position 1 of a 4-byte object: the entry keeps
    object 7 and length 4, the position moves to 3. *)
Lemma crud_write_in_place_witness :
  slot (crud_file_table
          (Demo.after (Demo.crud_write 0 (Some [x01; x02]) 2 Demo.updating) Demo.updating)) 0
  = Some (Demo.file "a" 7 3 4 1).
Proof.
  pose (st' := Demo.after (Demo.crud_write 0 (Some [x01; x02]) 2 Demo.updating)
                 Demo.updating).
  destruct (crud_write_in_place (platform := Demo.platform) (config := Demo.config)
              0 2 [x01; x02] Demo.updating st' 2 (Demo.file "a" 7 1 4 1))
    as (Hentry & _).
  - reflexivity.
  - discriminate.
  - discriminate.
  - reflexivity.
  - discriminate.
  - vm_compute. reflexivity.
  - discriminate.
  - exact Hentry.
Defined.

Lemma careful_delivers_ok : delivers_ok (platform := Demo.careful).
Proof.
  intros len w. cbn. apply Forall_forall. intros e He.
  apply filter_In in He. destruct He as [_ He]. unfold Demo.sound in He.
  apply andb_true_iff in He. destruct He as [Hlo Hhi].
  apply Z.leb_le in Hlo, Hhi. split; assumption.
Qed.

(** A whole session: the positions are within the lengths at its end. *)
Lemma position_within_length_witness : table_ok Demo.arrived.
Proof.
  destruct (position_within_length (platform := Demo.careful) (config := Demo.config)
              (Demo.wire []) Demo.journey Demo.started Demo.arrived)
    as (_ & _ & Hall).
  - apply Forall_forall. intros e He. vm_compute in He.
    destruct He as [He | [He | []]]; subst e; exact vacant_ok.
  - apply (Hall careful_delivers_ok). vm_compute. reflexivity.
Defined.

End Runs.

(** ** Further properties of the codec *)

(** Every decoded field is within its width. *)
Lemma parse_fields_bounded (x : Z) :
  0 <= Codec.oID (Codec.parse_CrudResponse x) < 2 ^ 32
  /\ 0 <= Codec.req (Codec.parse_CrudResponse x) < 2 ^ 4
  /\ 0 <= Codec.length (Codec.parse_CrudResponse x) < 2 ^ 24
  /\ 0 <= Codec.flags (Codec.parse_CrudResponse x) < 2 ^ 3
  /\ 0 <= Codec.res (Codec.parse_CrudResponse x) < 2 ^ 1.
Proof.
  rewrite parse_CrudResponse_div.
  cbn [Codec.oID Codec.req Codec.length Codec.flags Codec.res].
  assert (Hx := Z.mod_pos_bound x (2 ^ 64) ltac:(lia)).
  set (y := x mod 2 ^ 64) in *.
  split; [ | repeat split; try apply Z.mod_pos_bound; lia].
  split; [apply Z.div_pos; lia | apply Z.div_lt_upper_bound; lia].
Qed.

(** X1. Whatever 64-bit word is decoded, every field of the result lies
    within its declared width. *)
Theorem parse_CrudResponse_ranges (x : Z) :
  0 <= Codec.oID (Codec.parse_CrudResponse x) < 2 ^ 32
  /\ 0 <= Codec.req (Codec.parse_CrudResponse x) < 2 ^ 4
  /\ 0 <= Codec.length (Codec.parse_CrudResponse x) < 2 ^ 24
  /\ 0 <= Codec.flags (Codec.parse_CrudResponse x) < 2 ^ 3
  /\ 0 <= Codec.res (Codec.parse_CrudResponse x) < 2 ^ 1.
Proof.
  rewrite parse_CrudResponse_div.
  cbn [Codec.oID Codec.req Codec.length Codec.flags Codec.res].
  assert (Hx := Z.mod_pos_bound x (2 ^ 64) ltac:(lia)).
  repeat split; try apply Z.mod_pos_bound; try lia.
  - apply Z.div_pos; lia.
  - apply Z.div_lt_upper_bound; lia.
Qed.

(** X2. Encoding the fields decoded from a word gives back the word (its
    low 64 bits): the five fields cover the descriptor without gap or
    overlap. *)
Theorem convert_parse_round_trip (x : Z) :
  Codec.convert_to_CrudRequest
    (Codec.oID (Codec.parse_CrudResponse x)) (Codec.req (Codec.parse_CrudResponse x))
    (Codec.length (Codec.parse_CrudResponse x))
    (Codec.flags (Codec.parse_CrudResponse x)) (Codec.res (Codec.parse_CrudResponse x))
  = uint64 x.
Proof.
  destruct (parse_fields_bounded x) as (Ho & Hr & Hl & Hf & Hs).
  rewrite convert_to_CrudRequest_sum.
  rewrite !Z.mod_small by assumption. clear Ho Hr Hl Hf Hs.
  rewrite parse_CrudResponse_div.
  cbn [Codec.oID Codec.req Codec.length Codec.flags Codec.res].
  unfold uint64. change 18446744073709551616 with (2 ^ 64).
  assert (Hx := Z.mod_pos_bound x (2 ^ 64) ltac:(lia)).
  set (y := x mod 2 ^ 64) in *.
  change (2 ^ 32) with 4294967296 in *. change (2 ^ 28) with 268435456 in *.
  change (2 ^ 24) with 16777216 in *. change (2 ^ 64) with 18446744073709551616 in *.
  change (2 ^ 4) with 16 in *. change (2 ^ 3) with 8 in *. change (2 ^ 1) with 2 in *.
  Z.div_mod_to_equations. lia.
Qed.

(** ** Further properties of the client and the file layer *)

Section Beyond.

Import FileIO.

Context {World : Type} {platform : Platform World} {config : Config}.

(** The length [crud_send] and [crud_receive] read off a descriptor is the
    one [parse_CrudResponse] yields. *)
Lemma response_length (response : CrudResponse) :
  Z.land (Z.shiftr (uint64 response) 4) 16777215
  = Codec.length (parse_CrudResponse response).
Proof.
  unfold parse_CrudResponse, Codec.parse_CrudResponse. cbn [Codec.length].
  rewrite mask24. change 16777215 with (Z.ones 24).
  rewrite (proj2 (proj2 (proj2 (land_low_bits _)))). unfold uint32. symmetry.
  apply Z.mod_small.
  pose proof (Z.mod_pos_bound (Z.shiftr (uint64 response) 4) (2 ^ 24)). lia.
Qed.

(** X3. [crud_send] always reports success; for a request built by
    [convert_to_CrudRequest] it writes the descriptor and then, only when
    the operation code (cut to 4 bits) is CREATE or UPDATE, the buffer,
    with the length cut to 24 bits: of a longer buffer only
    [length mod 2^24] bytes are sent. *)
Theorem crud_send_payload (k : buf_kind) (oID req length flags res : Z)
    (buf : buffer k) (w : World) :
  let request := convert_to_CrudRequest oID req length flags res in
  crud_send request buf w
  = (0,
     if (req mod 2 ^ 4 =? CRUD_CREATE) || (req mod 2 ^ 4 =? CRUD_UPDATE)
     then sock_write_buf k buf (length mod 2 ^ 24) (sock_write_request request w)
     else sock_write_request request w).
Proof.
  intros request. unfold crud_send. cbv zeta.
  rewrite response_req, response_length. subst request.
  unfold parse_CrudResponse, convert_to_CrudRequest. rewrite parse_convert.
  reflexivity.
Qed.

(** The CRUD_INIT request carries the CRUD_INIT code. *)
Lemma init_request_code :
  0 <= CRUD_INIT < 2 ^ 4 ->
  uint8 (Z.land (Z.shiftr (uint64 (convert_to_CrudRequest 0 CRUD_INIT 0 0 0)) 28) 15)
  = CRUD_INIT.
Proof.
  intros H. rewrite response_req.
  unfold parse_CrudResponse, convert_to_CrudRequest. rewrite parse_convert.
  cbn [Codec.req]. rewrite (Z.mod_small CRUD_INIT) by exact H.
  unfold uint8. apply Z.mod_small. lia.
Qed.

Lemma initialize_unreachable (st : State World) :
  InitFlag st = 0 ->
  0 <= CRUD_INIT < 2 ^ 4 ->
  fst (sock_connect (socket (net st))) = false ->
  exists n,
    initialize st = (false, with_net st n)
    /\ socket n = snd (sock_connect (socket (net st)))
    /\ exists x, issued n = issued (net st) ++ [x] /\ failed x
                 /\ received x = uint64 (-1).
Proof.
  intros Hflag Hcode Hconn. unfold initialize. rewrite Hflag. cbn [Z.eqb].
  unfold exchange, crud_client_operation. rewrite (init_request_code Hcode).
  rewrite Z.eqb_refl.
  destruct (sock_connect (socket (net st))) as [connected w]. cbn [fst snd] in *.
  subst connected. cbn [negb].
  change (Codec.res (parse_CrudResponse (uint64 (-1))) =? 1) with true. cbv iota.
  eexists. split; [reflexivity | ]. split; [reflexivity | ].
  eexists. split; [reflexivity | ]. split; reflexivity.
Qed.

(** X4. When the server cannot be reached (socket, address or connect
    fails) while [InitFlag] is 0, every entry point other than
    [crud_unmount] returns its error value (-1, or 65535 for the
    [uint16_t] functions format and mount) without touching the file
    table; [InitFlag] stays 0, nothing is written to the socket, and the one
    call of [crud_client_operation] returned the all-ones failure word. *)
Theorem unreachable_server (c : Call) (st : State World) :
  InitFlag st = 0 ->
  0 <= CRUD_INIT < 2 ^ 4 ->
  fst (sock_connect (socket (net st))) = false ->
  c <> Unmount ->
  exists (st' : State World) (x : Exchange),
    perform c st = Returns (if file_call c then -1 else 65535, st')
    /\ InitFlag st' = 0
    /\ crud_file_table st' = crud_file_table st
    /\ socket (net st') = snd (sock_connect (socket (net st)))
    /\ during st st' = [x]
    /\ received x = uint64 (-1).
Proof.
  intros Hflag Hcode Hconn Hc.
  destruct (initialize_unreachable st Hflag Hcode Hconn)
    as (n & Hi & Hsock & x & Hx & _ & Hrecv).
  exists (with_net st n), x.
  assert (Hrest : InitFlag (with_net st n) = 0
                  /\ crud_file_table (with_net st n) = crud_file_table st
                  /\ socket (net (with_net st n)) = snd (sock_connect (socket (net st)))
                  /\ during st (with_net st n) = [x]
                  /\ received x = uint64 (-1)).
  { split; [exact Hflag | ]. split; [reflexivity | ]. split; [exact Hsock | ].
    split; [apply during_app; exact Hx | exact Hrecv]. }
  split; [ | exact Hrest].
  destruct c; cbn [perform file_call]; try contradiction.
  - unfold crud_format. rewrite Hi. reflexivity.
  - unfold crud_mount. rewrite Hi. reflexivity.
  - unfold crud_open. rewrite Hi. reflexivity.
  - unfold crud_close. rewrite Hi. reflexivity.
  - unfold crud_read. rewrite Hi. reflexivity.
  - unfold crud_write. rewrite Hi. reflexivity.
  - unfold crud_seek. rewrite Hi. reflexivity.
Qed.

(** *** What every entry point keeps *)

Lemma initialize_connected (st : State World) :
  InitFlag st <> 0 -> initialize st = (true, st).
Proof.
  intros H. unfold initialize.
  replace (InitFlag st =? 0) with false by (symmetry; apply Z.eqb_neq; exact H).
  reflexivity.
Qed.

(** X5. Nothing resets [InitFlag]: once it is set, every call that returns
    leaves it as it was, [crud_unmount] included, although it closes the
    connection; so after an unmount the CRUD_INIT block of the later calls
    does nothing and no call connects again. *)
Theorem InitFlag_stays_set (cs : list Call) (st st' : State World) :
  InitFlag st <> 0 ->
  session cs st = Returns st' ->
  InitFlag st' = InitFlag st /\ initialize st' = (true, st').
Proof.
  intros Hflag Hs.
  assert (Hkeep : InitFlag st' = InitFlag st).
  { revert st Hflag Hs. induction cs as [ | c cs IH]; intros st Hflag Hs;
      cbn [session] in Hs.
    - apply Returns_inj in Hs. subst st'. reflexivity.
    - destruct (perform c st) as [[r st1] | i] eqn:Hp; [ | discriminate Hs].
      assert (H1 : InitFlag st1 = InitFlag st).
      { apply perform_follows in Hp.
        destruct Hp as [[_ Hf] | (_ & ok & st0 & Hi & Hf)].
        - destruct Hf as [Hf _]. exact Hf.
        - rewrite (initialize_connected st Hflag) in Hi. split_pair Hi. subst ok st0.
          destruct Hf as [Hf _]. exact Hf. }
      rewrite <- H1. apply IH; [rewrite H1; exact Hflag | exact Hs]. }
  split; [exact Hkeep | ]. apply initialize_connected. rewrite Hkeep. exact Hflag.
Qed.

(** X6. Once connected, [crud_open], [crud_close] and [crud_seek] work on
    the file table alone: they make no request to the store and leave the
    socket as it is, whatever they return. *)
Theorem local_calls_make_no_request (c : Call) (st st' : State World) (r : Z) :
  InitFlag st <> 0 ->
  match c with Open _ | Close _ | Seek _ _ => True | _ => False end ->
  perform c st = Returns (r, st') ->
  net st' = net st /\ InitFlag st' = InitFlag st.
Proof.
  intros Hflag Hc H.
  destruct c; try contradiction; cbn [perform] in H.
  - unfold crud_open in H. rewrite (initialize_connected st Hflag) in H.
    walk H; try discriminate H; returned H; subst r st'; split; reflexivity.
  - unfold crud_close in H. rewrite (initialize_connected st Hflag) in H.
    walk H; try discriminate H; returned H; subst r st'; split; reflexivity.
  - unfold crud_seek in H. rewrite (initialize_connected st Hflag) in H.
    walk H; try discriminate H; returned H; subst r st'; split; reflexivity.
Qed.

End Beyond.

(** ** Opening files *)

Section Opening.

Import FileIO.

Context {World : Type} {platform : Platform World} {config : Config}.

Lemma slot_middle (pre post : list CrudFileAllocationType) (e : CrudFileAllocationType) :
  slot (pre ++ e :: post) (Z.of_nat (List.length pre)) = Some e.
Proof.
  unfold slot.
  replace (Z.of_nat (List.length pre) <? 0) with false by (symmetry; apply Z.ltb_ge; lia).
  rewrite Nat2Z.id, nth_error_app2 by lia. rewrite Nat.sub_diag. reflexivity.
Qed.

Lemma set_slot_middle (pre post : list CrudFileAllocationType)
    (e e' : CrudFileAllocationType) :
  set_slot (pre ++ e :: post) (Z.of_nat (List.length pre)) e' = pre ++ e' :: post.
Proof.
  unfold set_slot.
  replace (Z.of_nat (List.length pre) <? 0) with false by (symmetry; apply Z.ltb_ge; lia).
  rewrite Nat2Z.id. apply set_nth_middle.
Qed.

Lemma find_name_found (path : string) (pre post : list CrudFileAllocationType)
    (e : CrudFileAllocationType) (fh : Z) :
  Forall (fun x => filename x <> path) pre ->
  filename e = path ->
  fh + Z.of_nat (List.length pre) < CRUD_MAX_TOTAL_FILES ->
  find_name path (pre ++ e :: post) fh = Returns (fh + Z.of_nat (List.length pre)).
Proof.
  revert fh. induction pre as [ | x pre IH]; intros fh Hpre He Hlt;
    cbn [app find_name List.length] in *.
  - replace (fh <? CRUD_MAX_TOTAL_FILES) with true by (symmetry; apply Z.ltb_lt; lia).
    cbn [negb]. replace (filename e =? path)%string with true
      by (symmetry; apply String.eqb_eq; exact He).
    cbn [negb]. f_equal. lia.
  - inversion Hpre as [ | x' pre' Hx Hrest]; subst.
    replace (fh <? CRUD_MAX_TOTAL_FILES) with true by (symmetry; apply Z.ltb_lt; lia).
    cbn [negb]. apply String.eqb_neq in Hx. rewrite Hx. cbn [negb].
    rewrite IH by (try assumption; try reflexivity; lia). f_equal. lia.
Qed.

Lemma find_vacant_found (pre post : list CrudFileAllocationType)
    (e : CrudFileAllocationType) (fh : Z) :
  Forall (fun x => filename x <> ""%string) pre ->
  filename e = ""%string ->
  find_vacant (pre ++ e :: post) fh = Returns (fh + Z.of_nat (List.length pre)).
Proof.
  revert fh. induction pre as [ | x pre IH]; intros fh Hpre He;
    cbn [app find_vacant List.length] in *.
  - rewrite He. cbn. f_equal. lia.
  - inversion Hpre as [ | x' pre' Hx Hrest]; subst.
    apply String.eqb_neq in Hx. rewrite Hx. cbn [negb].
    rewrite IH by assumption. f_equal. lia.
Qed.

Lemma find_name_inv (path : string) (rest : list CrudFileAllocationType) (fh0 fh : Z) :
  find_name path rest fh0 = Returns fh ->
  fh0 <= CRUD_MAX_TOTAL_FILES ->
  (fh = CRUD_MAX_TOTAL_FILES
   /\ (fh0 + Z.of_nat (List.length rest) = CRUD_MAX_TOTAL_FILES ->
       Forall (fun x => filename x <> path) rest))
  \/ (fh < CRUD_MAX_TOTAL_FILES
      /\ exists pre e post,
           rest = pre ++ e :: post /\ fh = fh0 + Z.of_nat (List.length pre)
           /\ Forall (fun x => filename x <> path) pre /\ filename e = path).
Proof.
  revert fh0. induction rest as [ | x rest IH]; intros fh0 H Hle; cbn [find_name] in H.
  - destruct (fh0 <? CRUD_MAX_TOTAL_FILES) eqn:Hlt; cbn [negb] in H; [discriminate H | ].
    apply Returns_inj in H. apply Z.ltb_ge in Hlt. left. split; [lia | ].
    intros _. constructor.
  - destruct (fh0 <? CRUD_MAX_TOTAL_FILES) eqn:Hlt; cbn [negb] in H.
    + apply Z.ltb_lt in Hlt.
      destruct (filename x =? path)%string eqn:Hx; cbn [negb] in H.
      * apply Returns_inj in H. apply String.eqb_eq in Hx. right.
        split; [lia | ]. exists [], x, rest. cbn [app List.length].
        split; [reflexivity | ]. split; [lia | ]. split; [constructor | exact Hx].
      * apply String.eqb_neq in Hx.
        destruct (IH (fh0 + 1) H ltac:(lia)) as [[Hfull Hall] | (Hlow & pre & e & post & Hr & Hfh & Hpre & He)].
        -- left. split; [exact Hfull | ]. intros Hlen. constructor; [exact Hx | ].
           apply Hall. cbn [List.length] in Hlen. lia.
        -- right. split; [exact Hlow | ]. exists (x :: pre), e, post.
           subst rest. cbn [app List.length].
           split; [reflexivity | ]. split; [lia | ].
           split; [constructor; assumption | exact He].
    + apply Returns_inj in H. apply Z.ltb_ge in Hlt. left. split; [lia | ].
      intros Hlen. cbn [List.length] in Hlen. lia.
Qed.

Lemma find_vacant_inv (rest : list CrudFileAllocationType) (fh0 fh : Z) :
  find_vacant rest fh0 = Returns fh ->
  exists pre e post,
    rest = pre ++ e :: post /\ fh = fh0 + Z.of_nat (List.length pre)
    /\ Forall (fun x => filename x <> ""%string) pre /\ filename e = ""%string.
Proof.
  revert fh0. induction rest as [ | x rest IH]; intros fh0 H; cbn [find_vacant] in H.
  - discriminate H.
  - destruct (filename x =? "")%string eqn:Hx; cbn [negb] in H.
    + apply Returns_inj in H. apply String.eqb_eq in Hx.
      exists [], x, rest. cbn [app List.length].
      split; [reflexivity | ]. split; [lia | ]. split; [constructor | exact Hx].
    + apply String.eqb_neq in Hx.
      destruct (IH (fh0 + 1) H) as (pre & e & post & Hr & Hfh & Hpre & He).
      exists (x :: pre), e, post. subst rest. cbn [app List.length].
      split; [reflexivity | ]. split; [lia | ].
      split; [constructor; assumption | exact He].
Qed.

Lemma int16_small (z : Z) : 0 <= z < 32768 -> int16 z = z.
Proof.
  intros H. unfold int16, uint16. rewrite Z.mod_small by lia.
  replace (z <? 32768) with true by (symmetry; apply Z.ltb_lt; lia). reflexivity.
Qed.

Lemma path_accepted (path : string) :
  0 < Z.of_nat (String.length path) <= CRUD_MAX_PATH_LENGTH ->
  (Z.of_nat (String.length path) >? CRUD_MAX_PATH_LENGTH)
  || (Z.of_nat (String.length path) <=? 0) = false.
Proof.
  intros H. apply orb_false_iff. split.
  - rewrite Z.gtb_ltb. apply Z.ltb_ge. lia.
  - apply Z.leb_gt. lia.
Qed.

(** [crud_open] of a name whose first slot is known. *)
Lemma crud_open_at (path : string) (st st0 : State World)
    (pre post : list CrudFileAllocationType) (e : CrudFileAllocationType) :
  initialize st = (true, st0) ->
  0 < Z.of_nat (String.length path) <= CRUD_MAX_PATH_LENGTH ->
  crud_file_table st = pre ++ e :: post ->
  Forall (fun x => filename x <> path) pre ->
  filename e = path ->
  Z.of_nat (List.length pre) < CRUD_MAX_TOTAL_FILES ->
  crud_open path st
  = if open e =? 1 then Returns (-1, st0)
    else Returns (int16 (Z.of_nat (List.length pre)),
                  with_table st0
                    (pre ++ {| filename := filename e; object_id := object_id e;
                               position := 0; length := length e; open := 1 |}
                         :: post)).
Proof.
  intros Hi Hpath Ht Hpre He Hlt. unfold crud_open. rewrite Hi. cbn [negb].
  apply initialize_spec in Hi. destruct Hi as [Ht0 _]. rewrite Ht0, Ht.
  rewrite (path_accepted path Hpath).
  rewrite (find_name_found path pre post e 0 Hpre He) by lia. cbn [Z.add].
  replace (Z.of_nat (List.length pre) =? CRUD_MAX_TOTAL_FILES) with false
    by (symmetry; apply Z.eqb_neq; lia).
  rewrite slot_middle. destruct (open e =? 1); [reflexivity | ].
  rewrite set_slot_middle. reflexivity.
Qed.

(** [crud_open] of a name that is in no slot, the first empty slot known. *)
Lemma crud_open_fresh (path : string) (st st0 : State World)
    (pre post : list CrudFileAllocationType) (e : CrudFileAllocationType) :
  initialize st = (true, st0) ->
  0 < Z.of_nat (String.length path) <= CRUD_MAX_PATH_LENGTH ->
  full_size st ->
  crud_file_table st = pre ++ e :: post ->
  Forall (fun x => filename x <> path) (crud_file_table st) ->
  Forall (fun x => filename x <> ""%string) pre ->
  filename e = ""%string ->
  crud_open path st
  = Returns (int16 (Z.of_nat (List.length pre)),
             with_table st0
               (pre ++ {| filename := path; object_id := 0; position := 0;
                          length := 0; open := 1 |} :: post)).
Proof.
  intros Hi Hpath Hsize Ht Hall Hpre He. unfold crud_open. rewrite Hi. cbn [negb].
  apply initialize_spec in Hi. destruct Hi as [Ht0 _]. rewrite Ht0.
  rewrite (path_accepted path Hpath).
  rewrite (find_name_absent path (crud_file_table st) 0 Hall Hsize).
  rewrite Z.eqb_refl. rewrite Ht.
  rewrite (find_vacant_found pre post e 0 Hpre He). cbn [Z.add].
  unfold full_size in Hsize. rewrite Ht, length_app in Hsize. cbn [List.length] in Hsize.
  replace (Z.of_nat (List.length pre) =? CRUD_MAX_TOTAL_FILES) with false
    by (symmetry; apply Z.eqb_neq; lia).
  rewrite set_slot_middle. reflexivity.
Qed.

(** X8. Opening a new name: on a table of CRUD_MAX_TOTAL_FILES slots
    (at most 32768, so that a handle fits [int16_t]) in which no slot
    carries the name, [crud_open] of a valid name takes the first slot with
    an empty name, returns its index and makes it an open, empty file with
    no object assigned (identifier 0, length 0, position 0); every other
    slot is left as it was. *)
Theorem crud_open_new_file (path : string) (st st0 : State World)
    (pre post : list CrudFileAllocationType) (e : CrudFileAllocationType) :
  initialize st = (true, st0) ->
  0 < Z.of_nat (String.length path) <= CRUD_MAX_PATH_LENGTH ->
  full_size st ->
  CRUD_MAX_TOTAL_FILES <= 32768 ->
  crud_file_table st = pre ++ e :: post ->
  Forall (fun x => filename x <> path) (crud_file_table st) ->
  Forall (fun x => filename x <> ""%string) pre ->
  filename e = ""%string ->
  crud_open path st
  = Returns (Z.of_nat (List.length pre),
             with_table st0
               (pre ++ {| filename := path; object_id := 0; position := 0;
                          length := 0; open := 1 |} :: post)).
Proof.
  intros Hi Hpath Hsize Hmax Ht Hall Hpre He.
  rewrite (crud_open_fresh path st st0 pre post e Hi Hpath Hsize Ht Hall Hpre He).
  unfold full_size in Hsize. rewrite Ht, length_app in Hsize. cbn [List.length] in Hsize.
  rewrite int16_small by lia. reflexivity.
Qed.

(** X9. Opening a known name: when the first slot carrying the name is
    closed, [crud_open] returns its index and reopens it at position 0,
    keeping the object identifier and the length stored in it; when that
    slot is already open, it returns -1 and changes nothing. *)
Theorem crud_open_known_file (path : string) (st st0 : State World)
    (pre post : list CrudFileAllocationType) (e : CrudFileAllocationType) :
  initialize st = (true, st0) ->
  0 < Z.of_nat (String.length path) <= CRUD_MAX_PATH_LENGTH ->
  crud_file_table st = pre ++ e :: post ->
  Forall (fun x => filename x <> path) pre ->
  filename e = path ->
  Z.of_nat (List.length pre) < CRUD_MAX_TOTAL_FILES <= 32768 ->
  (open e = 1 -> crud_open path st = Returns (-1, st0))
  /\ (open e <> 1 ->
      crud_open path st
      = Returns (Z.of_nat (List.length pre),
                 with_table st0
                   (pre ++ {| filename := path; object_id := object_id e;
                              position := 0; length := length e; open := 1 |}
                        :: post))).
Proof.
  intros Hi Hpath Ht Hpre He Hlt.
  rewrite (crud_open_at path st st0 pre post e Hi Hpath Ht Hpre He) by lia.
  split; intros Hopen.
  - rewrite Hopen. reflexivity.
  - replace (open e =? 1) with false by (symmetry; apply Z.eqb_neq; exact Hopen).
    rewrite int16_small by lia. rewrite He. reflexivity.
Qed.

(** X10. Double open: after a [crud_open] that returned a handle, the
    handle is an index of the table, its slot carries the name, is open
    and at position 0, and a second [crud_open] of the same name returns -1
    and changes nothing. *)
Theorem crud_open_twice (path : string) (st st1 : State World) (fh : Z) :
  full_size st ->
  CRUD_MAX_TOTAL_FILES <= 32768 ->
  crud_open path st = Returns (fh, st1) ->
  fh <> -1 ->
  0 <= fh < CRUD_MAX_TOTAL_FILES
  /\ (exists e, slot (crud_file_table st1) fh = Some e
                /\ filename e = path /\ open e = 1 /\ position e = 0)
  /\ crud_open path st1 = Returns (-1, st1).
Proof.
  intros Hsize Hmax H Hfh. unfold crud_open in H.
  destruct (initialize st) as [ok st0] eqn:Hi.
  destruct ok; cbn [negb] in H; [ | returned H; congruence].
  pose proof Hi as Hspec. apply initialize_spec in Hspec.
  destruct Hspec as (Ht0 & xs0 & _ & _ & Hok). destruct (Hok eq_refl) as (Hflag & _).
  clear Hok.
  destruct ((Z.of_nat (String.length path) >? CRUD_MAX_PATH_LENGTH)
            || (Z.of_nat (String.length path) <=? 0)) eqn:Hpath;
    [returned H; congruence | ].
  assert (Hvalid : 0 < Z.of_nat (String.length path) <= CRUD_MAX_PATH_LENGTH).
  { apply orb_false_iff in Hpath. destruct Hpath as [Hhi Hlo].
    rewrite Z.gtb_ltb in Hhi. apply Z.ltb_ge in Hhi. apply Z.leb_gt in Hlo. lia. }
  assert (Hsize0 : Z.of_nat (List.length (crud_file_table st0)) = CRUD_MAX_TOTAL_FILES)
    by (rewrite Ht0; exact Hsize).
  assert (Hagain : forall pre post e',
             Z.of_nat (List.length pre) < CRUD_MAX_TOTAL_FILES ->
             st1 = with_table st0 (pre ++ e' :: post) ->
             Forall (fun x => filename x <> path) pre ->
             filename e' = path -> open e' = 1 -> position e' = 0 ->
             fh = Z.of_nat (List.length pre) ->
             0 <= fh < CRUD_MAX_TOTAL_FILES
             /\ (exists e, slot (crud_file_table st1) fh = Some e
                           /\ filename e = path /\ open e = 1 /\ position e = 0)
             /\ crud_open path st1 = Returns (-1, st1)).
  { intros pre post e' Hlen Hst1 Hpre He' Hopen Hpos Hfh'.
    split; [lia | ]. split.
    - exists e'. subst st1 fh. cbn [crud_file_table with_table].
      rewrite slot_middle. repeat split; assumption.
    - rewrite (crud_open_at path st1 st1 pre post e').
      + rewrite Hopen. reflexivity.
      + apply initialize_connected. subst st1. exact Hflag.
      + exact Hvalid.
      + subst st1. reflexivity.
      + exact Hpre.
      + exact He'.
      + exact Hlen. }
  destruct (find_name path (crud_file_table st0) 0) as [found | i] eqn:Hfind;
    [ | discriminate H].
  destruct (find_name_inv path _ 0 found Hfind ltac:(lia))
    as [[Hfull Hall] | (Hlow & pre & e & post & Ht & Hfound & Hpre & He)].
  - subst found. rewrite Z.eqb_refl in H.
    destruct (find_vacant (crud_file_table st0) 0) as [free | i] eqn:Hvac;
      [ | discriminate H].
    destruct (find_vacant_inv _ 0 free Hvac) as (pre & e & post & Ht & Hfree & Hpre & He).
    destruct (free =? CRUD_MAX_TOTAL_FILES) eqn:Hfreemax; [returned H; congruence | ].
    returned H. cbn [Z.add] in Hfree. subst free.
    rewrite Ht, set_slot_middle in H0.
    assert (Hlen : Z.of_nat (List.length pre) < CRUD_MAX_TOTAL_FILES).
    { rewrite <- Hsize0, Ht, length_app. cbn [List.length]. lia. }
    rewrite int16_small in H by lia.
    specialize (Hall ltac:(lia)). rewrite Ht in Hall.
    apply Forall_app in Hall. destruct Hall as [Hallpre _].
    eapply (Hagain pre post);
      [ exact Hlen | symmetry; exact H0 | exact Hallpre | reflexivity | reflexivity
      | reflexivity | symmetry; exact H ].
  - replace (found =? CRUD_MAX_TOTAL_FILES) with false in H
      by (symmetry; apply Z.eqb_neq; lia).
    cbn [Z.add] in Hfound. subst found. rewrite Ht, slot_middle in H.
    destruct (open e =? 1) eqn:Hopen; [returned H; congruence | ].
    returned H. rewrite set_slot_middle in H0.
    assert (Hlen : Z.of_nat (List.length pre) < CRUD_MAX_TOTAL_FILES) by lia.
    rewrite int16_small in H by lia.
    eapply (Hagain pre post);
      [ exact Hlen | symmetry; exact H0 | exact Hpre | exact He | reflexivity
      | reflexivity | symmetry; exact H ].
Qed.

End Opening.

(** ** Handles *)

Section Handles.

Import FileIO.

Context {World : Type} {platform : Platform World} {config : Config}.

(** X11. Arguments are checked before the store is asked anything: once
    connected, [crud_read] and [crud_write] with a handle outside the
    table, a negative count or a handle whose slot is closed, and
    [crud_write] with a NULL buffer, return -1 and leave the whole state,
    file table and socket, as it was (and [crud_read] the output buffer). *)
Theorem rejected_before_any_request (fd count : Z) (out : list byte)
    (buf : option (list byte)) (st : State World) :
  InitFlag st <> 0 ->
  (fd < 0 \/ CRUD_MAX_TOTAL_FILES <= fd \/ count < 0 \/ buf = None
   \/ exists e, slot (crud_file_table st) fd = Some e /\ open e = 0) ->
  (buf <> None -> crud_read fd out count st = Returns (-1, out, st))
  /\ crud_write fd buf count st = Returns (-1, st).
Proof.
  intros Hflag Hbad. unfold crud_read, crud_write.
  rewrite (initialize_connected st Hflag). cbn [negb].
  destruct (fd <? 0) eqn:Hneg; [rewrite orb_true_r | rewrite orb_false_r].
  { split; [intros _ | ]; destruct buf; destruct (count <? 0); reflexivity. }
  destruct (fd >=? CRUD_MAX_TOTAL_FILES) eqn:Hbig.
  { split; [intros _ | ]; destruct buf; destruct (count <? 0); reflexivity. }
  destruct (count <? 0) eqn:Hcount.
  { split; [intros _ | ]; destruct buf; reflexivity. }
  apply Z.ltb_ge in Hneg, Hcount. rewrite Z.geb_leb in Hbig. apply Z.leb_gt in Hbig.
  destruct Hbad as [Hbad | [Hbad | [Hbad | [Hbad | (e & He & Hopen)]]]]; try lia.
  - subst buf. split; [intros Hnot; contradiction | reflexivity].
  - rewrite He, Hopen. cbn [Z.eqb]. split; [intros _ | ]; destruct buf; reflexivity.
Qed.

(** X12. [crud_seek] on an open handle accepts exactly the targets up to
    the length, the end of the file included: the target, taken as a
    [uint32_t], becomes the position when it is at most the length, and
    otherwise the call returns -1 and changes nothing.  No other field and
    no other slot is touched. *)
Theorem crud_seek_within_length (fd loc : Z) (st : State World)
    (e : CrudFileAllocationType) :
  InitFlag st <> 0 ->
  0 <= fd < CRUD_MAX_TOTAL_FILES ->
  slot (crud_file_table st) fd = Some e ->
  open e <> 0 ->
  (uint32 loc <= length e ->
   crud_seek fd loc st
   = Returns (0, with_table st
                   (set_slot (crud_file_table st) fd
                      {| filename := filename e; object_id := object_id e;
                         position := uint32 loc; length := length e;
                         open := open e |})))
  /\ (length e < uint32 loc -> crud_seek fd loc st = Returns (-1, st)).
Proof.
  intros Hflag Hfd He Hopen. unfold crud_seek.
  rewrite (initialize_connected st Hflag). cbn [negb].
  rewrite (handle_in_range fd Hfd), He.
  replace (open e =? 0) with false by (symmetry; apply Z.eqb_neq; exact Hopen).
  assert (Hpos : (uint32 loc <? 0) = false).
  { apply Z.ltb_ge. unfold uint32.
    pose proof (Z.mod_pos_bound loc 4294967296). lia. }
  rewrite Hpos, orb_false_r. split; intros Hloc.
  - replace (uint32 loc >? length e) with false
      by (symmetry; rewrite Z.gtb_ltb; apply Z.ltb_ge; lia).
    reflexivity.
  - replace (uint32 loc >? length e) with true
      by (symmetry; rewrite Z.gtb_ltb; apply Z.ltb_lt; lia).
    reflexivity.
Qed.

(** X13. Close, then reopen: closing an open handle returns 0 and clears
    its open flag only; a later [crud_open] of the name (the slot being the
    first with that name) returns the same handle, with the object
    identifier and the length the slot had, at position 0.  Closing a
    handle whose slot is closed returns -1. *)
Theorem crud_close_then_reopen (st : State World)
    (pre post : list CrudFileAllocationType) (e : CrudFileAllocationType) :
  InitFlag st <> 0 ->
  crud_file_table st = pre ++ e :: post ->
  Z.of_nat (List.length pre) < CRUD_MAX_TOTAL_FILES <= 32768 ->
  0 < Z.of_nat (String.length (filename e)) <= CRUD_MAX_PATH_LENGTH ->
  Forall (fun x => filename x <> filename e) pre ->
  let fh := Z.of_nat (List.length pre) in
  let closed := {| filename := filename e; object_id := object_id e;
                   position := position e; length := length e; open := 0 |} in
  let reopened := {| filename := filename e; object_id := object_id e;
                     position := 0; length := length e; open := 1 |} in
  (open e = 0 -> crud_close fh st = Returns (-1, st))
  /\ (open e <> 0 ->
      crud_close fh st = Returns (0, with_table st (pre ++ closed :: post))
      /\ crud_open (filename e) (with_table st (pre ++ closed :: post))
         = Returns (fh, with_table st (pre ++ reopened :: post))).
Proof.
  intros Hflag Ht Hlen Hname Hpre fh closed reopened.
  assert (Hclose : crud_close fh st
                   = if open e =? 0 then Returns (-1, st)
                     else Returns (0, with_table st (pre ++ closed :: post))).
  { unfold crud_close. rewrite (initialize_connected st Hflag). cbn [negb].
    rewrite (handle_in_range fh) by (subst fh; lia).
    rewrite Ht. subst fh. rewrite slot_middle.
    destruct (open e =? 0); [reflexivity | ]. rewrite set_slot_middle. reflexivity. }
  rewrite Hclose. split; intros Hopen.
  - rewrite Hopen. reflexivity.
  - replace (open e =? 0) with false by (symmetry; apply Z.eqb_neq; exact Hopen).
    split; [reflexivity | ].
    rewrite (crud_open_at (filename e) _ (with_table st (pre ++ closed :: post))
               pre post closed).
    + cbn [open closed Z.eqb]. subst fh. rewrite int16_small by lia. reflexivity.
    + apply initialize_connected. exact Hflag.
    + exact Hname.
    + reflexivity.
    + exact Hpre.
    + reflexivity.
    + lia.
Qed.

End Handles.

(** ** Writing and reading *)

Section Transfers.

Import FileIO.

Context {World : Type} {platform : Platform World} {config : Config}.

Lemma memcpy_length (dst src : list byte) (off n : Z) :
  0 <= off -> 0 <= n ->
  off + n <= Z.of_nat (List.length dst) -> n <= Z.of_nat (List.length src) ->
  List.length (memcpy dst off src n) = List.length dst.
Proof.
  intros Hoff Hn Hdst Hsrc. unfold memcpy.
  rewrite !length_app, !length_firstn, length_skipn. lia.
Qed.

(** X14. The first write to a file with no object: a successful
    [crud_write] sends one CREATE of [count] bytes carrying the caller's
    buffer, stores the identifier the store answered, and sets both the
    length and the position to [count], whatever the position was; it
    returns [count] and touches no other slot. *)
Theorem crud_write_creates (fd count : Z) (buf : list byte)
    (st st' : State World) (r : Z) (e : CrudFileAllocationType) :
  slot (crud_file_table st) fd = Some e ->
  object_id e = 0 ->
  count < 2 ^ 32 ->
  crud_write fd (Some buf) count st = Returns (r, st') ->
  r <> -1 ->
  r = count
  /\ (forall i, i <> fd -> slot (crud_file_table st') i = slot (crud_file_table st) i)
  /\ exists (before : list Exchange) (create : Exchange),
       during st st' = before ++ [create]
       /\ sent create = convert_to_CrudRequest 0 CRUD_CREATE count 0 0
       /\ sent_bytes create = buf
       /\ slot (crud_file_table st') fd
          = Some {| filename := filename e;
                    object_id := Codec.oID (parse_CrudResponse (received create));
                    position := count; length := count; open := open e |}.
Proof.
  intros He Hid Hmax Hw Hr. unfold crud_write in Hw.
  destruct (initialize st) as [ok st0] eqn:Hi.
  apply initialize_spec in Hi. destruct Hi as (Ht & xs0 & Hl & _).
  destruct ok; cbn [negb] in Hw; [ | returned Hw; congruence].
  destruct (count <? 0) eqn:Hcount; [returned Hw; congruence | ].
  apply Z.ltb_ge in Hcount.
  destruct ((fd >=? CRUD_MAX_TOTAL_FILES) || (fd <? 0)); [returned Hw; congruence | ].
  rewrite Ht, He in Hw.
  destruct (open e =? 0); [returned Hw; congruence | ].
  rewrite Hid in Hw. cbn [Z.eqb] in Hw.
  next_exchange Hw created b1 n1 Hx1.
  destruct (Codec.res (parse_CrudResponse created) =? 1); [returned Hw; congruence | ].
  returned Hw. subst r st'. cbn [crud_file_table with_table with_net net].
  rewrite Ht. change (2 ^ 32) with 4294967296 in Hmax.
  unfold uint32. rewrite (Z.mod_small count) by lia.
  split; [reflexivity | ]. split.
  - intros i Hne. apply slot_set_slot_other. exact Hne.
  - exists xs0. eexists. split; [ | split; [ | split]].
    + apply during_app. cbn [net with_table with_net]. rewrite Hl0, Hl.
      rewrite <- app_assoc. reflexivity.
    + reflexivity.
    + reflexivity.
    + cbn [received]. apply (slot_set_slot_same _ _ e). exact He.
Qed.

(** X15. The growing write: on an assigned object, with the position
    within the length and position+count beyond it, a successful
    [crud_write] reads the object, CREATEs a new object of position+count
    bytes (the bytes read up to the position, then the caller's bytes),
    DELETEs the old object, and then stores the new identifier and sets
    both the length and the position to position+count. *)
Theorem crud_write_grows (fd count : Z) (buf : list byte)
    (st st' : State World) (r : Z) (e : CrudFileAllocationType) :
  slot (crud_file_table st) fd = Some e ->
  object_id e <> 0 ->
  0 <= position e <= length e ->
  length e < position e + count < 2 ^ 32 ->
  count <= Z.of_nat (List.length buf) ->
  crud_write fd (Some buf) count st = Returns (r, st') ->
  r <> -1 ->
  r = count
  /\ (forall i, i <> fd -> slot (crud_file_table st') i = slot (crud_file_table st) i)
  /\ exists (before : list Exchange) (read create delete : Exchange),
       during st st' = before ++ [read; create; delete]
       /\ sent read = convert_to_CrudRequest (object_id e) CRUD_READ (length e) 0 0
       /\ sent create
          = convert_to_CrudRequest 0 CRUD_CREATE (position e + count) 0 0
       /\ sent delete = convert_to_CrudRequest (object_id e) CRUD_DELETE 0 0 0
       /\ Z.of_nat (List.length (sent_bytes create)) = position e + count
       /\ (forall i : nat,
             Z.of_nat i < position e + count ->
             nth_error (sent_bytes create) i
             = if Z.of_nat i <? position e then nth_error (received_bytes read) i
               else nth_error buf (i - Z.to_nat (position e)))
       /\ slot (crud_file_table st') fd
          = Some {| filename := filename e;
                    object_id := Codec.oID (parse_CrudResponse (received create));
                    position := position e + count; length := position e + count;
                    open := open e |}.
Proof.
  intros He Hid Hpos Hgrow Hbuf Hw Hr. unfold crud_write in Hw.
  destruct (initialize st) as [ok st0] eqn:Hi.
  apply initialize_spec in Hi. destruct Hi as (Ht & xs0 & Hl & _).
  destruct ok; cbn [negb] in Hw; [ | returned Hw; congruence].
  destruct (count <? 0) eqn:Hcount; [returned Hw; congruence | ].
  apply Z.ltb_ge in Hcount.
  destruct ((fd >=? CRUD_MAX_TOTAL_FILES) || (fd <? 0)); [returned Hw; congruence | ].
  rewrite Ht, He in Hw.
  destruct (open e =? 0); [returned Hw; congruence | ].
  replace (object_id e =? 0) with false in Hw by (symmetry; apply Z.eqb_neq; exact Hid).
  next_exchange Hw readResponse readBuf n1 Hx1.
  destruct (Codec.res (parse_CrudResponse readResponse) =? 1);
    [returned Hw; congruence | ].
  change (2 ^ 32) with 4294967296 in Hgrow.
  unfold uint32 in Hw. rewrite (Z.mod_small (position e + count)) in Hw by lia.
  replace (position e + count >? length e) with true in Hw
    by (symmetry; rewrite Z.gtb_ltb; apply Z.ltb_lt; lia).
  next_exchange Hw created b2 n2 Hx2.
  destruct (Codec.res (parse_CrudResponse created) =? 1); [returned Hw; congruence | ].
  next_exchange Hw deleted b3 n3 Hx3.
  destruct (Codec.res (parse_CrudResponse deleted) =? 1); [returned Hw; congruence | ].
  returned Hw. subst r st'. cbn [crud_file_table with_table with_net net].
  rewrite Ht.
  apply exchange_bytes_length in Hx1. rewrite malloc_length in Hx1.
  cbn [socket net with_net] in *.
  set (fresh := malloc (position e + count) (socket n1)) in *.
  assert (Hfresh : List.length fresh = Z.to_nat (position e + count))
    by apply malloc_length.
  assert (Hinner : List.length (memcpy fresh 0 readBuf (length e)) = List.length fresh)
    by (apply memcpy_length; lia).
  split; [reflexivity | ]. split.
  - intros i Hne. apply slot_set_slot_other. exact Hne.
  - exists xs0. eexists. eexists. eexists.
    split; [ | split; [ | split; [ | split; [ | split; [ | split]]]]].
    + apply during_app. cbn [net with_table with_net]. rewrite Hl2, Hl1, Hl0, Hl.
      rewrite <- !app_assoc. reflexivity.
    + reflexivity.
    + reflexivity.
    + reflexivity.
    + cbn [sent_bytes bytes_of]. rewrite memcpy_length by lia. lia.
    + intros i Hin. cbn [sent_bytes received_bytes bytes_of].
      rewrite memcpy_nth by lia.
      destruct (Z.of_nat i <? position e) eqn:Hlow.
      * apply Z.ltb_lt in Hlow.
        replace (position e <=? Z.of_nat i) with false by (symmetry; apply Z.leb_gt; lia).
        cbn [andb]. rewrite memcpy_nth by lia.
        replace ((0 <=? Z.of_nat i) && (Z.of_nat i <? 0 + length e)) with true
          by (symmetry; apply andb_true_iff; split;
              [apply Z.leb_le | apply Z.ltb_lt]; lia).
        f_equal. lia.
      * apply Z.ltb_ge in Hlow.
        replace ((position e <=? Z.of_nat i) && (Z.of_nat i <? position e + count))
          with true
          by (symmetry; apply andb_true_iff; split;
              [apply Z.leb_le | apply Z.ltb_lt]; lia).
        reflexivity.
    + cbn [received]. apply (slot_set_slot_same _ _ e). exact He.
Qed.

End Transfers.

(** ** What a transfer leaves alone *)

Section Frames.

Import FileIO.

Context {World : Type} {platform : Platform World} {config : Config}.

Lemma set_slot_frame (R : CrudFileAllocationType -> CrudFileAllocationType -> Prop)
    (tbl : list CrudFileAllocationType) (fd : Z) (e enew : CrudFileAllocationType) :
  (forall x, R x x) ->
  slot tbl fd = Some e ->
  R e enew ->
  forall i e', slot (set_slot tbl fd enew) i = Some e' ->
    exists e0, slot tbl i = Some e0 /\ R e0 e' /\ (i <> fd -> e' = e0).
Proof.
  intros Hrefl He HR i e' Hi.
  destruct (Z.eq_dec i fd) as [Heq | Hne].
  - subst i. rewrite (slot_set_slot_same tbl fd e enew He) in Hi.
    injection Hi as Hi. subst e'. exists e. split; [exact He | ].
    split; [exact HR | intros Hne; contradiction].
  - rewrite (slot_set_slot_other tbl fd i enew Hne) in Hi.
    exists e'. split; [exact Hi | ]. split; [apply Hrefl | intros _; reflexivity].
Qed.

Lemma table_frame_refl (R : CrudFileAllocationType -> CrudFileAllocationType -> Prop)
    (tbl : list CrudFileAllocationType) (fd : Z) :
  (forall x, R x x) ->
  forall i e', slot tbl i = Some e' ->
    exists e0, slot tbl i = Some e0 /\ R e0 e' /\ (i <> fd -> e' = e0).
Proof.
  intros Hrefl i e' Hi. exists e'. split; [exact Hi | ].
  split; [apply Hrefl | intros _; reflexivity].
Qed.

End Frames.

(** The end of a branch of a transfer: the table is the old one, or the
    old one with the slot of the handle replaced. *)
Ltac branch_frame Ht :=
  cbn [FileIO.crud_file_table FileIO.with_net FileIO.with_table] in *;
  rewrite ?Ht in *;
  first
    [ apply table_frame_refl; intros x; repeat split; reflexivity
    | eapply set_slot_frame;
      [ intros x; repeat split; reflexivity
      | eassumption
      | repeat split; reflexivity ] ].

Section FrameTheorems.

Import FileIO.

Context {World : Type} {platform : Platform World} {config : Config}.

(** X16. [crud_read] moves the position of the handle's slot and nothing
    else: whatever it returns, every slot keeps its name, object
    identifier, length and open flag, and every slot other than the
    handle's is untouched; when it returns -1 the output buffer and the
    whole table are untouched. *)
Theorem crud_read_frame (fd count : Z) (buf buf' : list byte)
    (st st' : State World) (r : Z) :
  crud_read fd buf count st = Returns (r, buf', st') ->
  (forall i e', slot (crud_file_table st') i = Some e' ->
     exists e, slot (crud_file_table st) i = Some e
       /\ (filename e = filename e' /\ object_id e = object_id e'
           /\ length e = length e' /\ open e = open e')
       /\ (i <> fd -> e' = e))
  /\ (r = -1 -> buf' = buf /\ crud_file_table st' = crud_file_table st).
Proof.
  intros H. unfold crud_read in H.
  destruct (initialize st) as [ok st0] eqn:Hi.
  apply initialize_spec in Hi. destruct Hi as [Ht _].
  walk H; try discriminate H; returned H; subst r buf' st'; (split; [branch_frame Ht | ]);
    cbn [crud_file_table with_net with_table]; rewrite ?Ht;
    try (intros _; split; reflexivity).
  - intros Hneg. exfalso. tests. unfold int32, uint32 in *.
    destruct (_ <? 2147483648) eqn:Hsmall in Hneg; tests;
      Z.div_mod_to_equations; lia.
  - intros Hneg. exfalso. tests. lia.
Qed.

(** X17. [crud_write] never renames a file and never changes an open
    flag: whatever it returns, every slot keeps its name and open flag,
    and every slot other than the handle's is untouched. *)
Theorem crud_write_frame (fd count : Z) (buf : option (list byte))
    (st st' : State World) (r : Z) :
  crud_write fd buf count st = Returns (r, st') ->
  forall i e', slot (crud_file_table st') i = Some e' ->
    exists e, slot (crud_file_table st) i = Some e
      /\ (filename e = filename e' /\ open e = open e')
      /\ (i <> fd -> e' = e).
Proof.
  intros H. unfold crud_write in H.
  destruct (initialize st) as [ok st0] eqn:Hi.
  apply initialize_spec in Hi. destruct Hi as [Ht _].
  destruct buf as [buf | ];
    walk H; try discriminate H; returned H; subst r st'; branch_frame Ht.
Qed.

End FrameTheorems.

(** ** The volume *)

Section Volume.

Import FileIO.

Context {World : Type} {platform : Platform World} {config : Config}.

(** X18. [crud_unmount], once connected, first sends the UPDATE of the
    table object.  If the UPDATE fails it returns the error value and the
    CLOSE is not attempted; otherwise it sends CLOSE and returns 0 or the
    error value as the CLOSE succeeds or fails. *)
Theorem crud_unmount_sequence (st st' : State World) (r : Z) :
  InitFlag st <> 0 ->
  crud_unmount st = (r, st') ->
  exists update : Exchange,
    sent update
    = convert_to_CrudRequest 0 CRUD_UPDATE table_size CRUD_PRIORITY_OBJECT 0
    /\ ((failed update /\ during st st' = [update] /\ r = 65535)
        \/ (~ failed update
            /\ exists close : Exchange,
                 during st st' = [update; close]
                 /\ sent close = convert_to_CrudRequest 0 CRUD_CLOSE 0 CRUD_NULL_FLAG 0
                 /\ ((failed close /\ r = 65535) \/ (~ failed close /\ r = 0)))).
Proof.
  intros Hflag H. unfold crud_unmount in H.
  replace (InitFlag st =? 0) with false in H by (symmetry; apply Z.eqb_neq; exact Hflag).
  next_exchange H updated tbl n1 Hx1.
  exists {| sent := convert_to_CrudRequest 0 CRUD_UPDATE table_size CRUD_PRIORITY_OBJECT 0;
            sent_bytes := []; received := updated; received_bytes := [] |}.
  destruct (Codec.res (parse_CrudResponse updated) =? 1) eqn:Hr1.
  - split_pair H. subst r st'. split; [reflexivity | ].
    left. split; [apply is_failed; exact Hr1 | ].
    split; [ | reflexivity]. apply during_app. cbn [net with_net]. exact Hl.
  - next_exchange H closed u n2 Hx2. split; [reflexivity | ]. right.
    split; [apply not_failed; exact Hr1 | ].
    exists {| sent := convert_to_CrudRequest 0 CRUD_CLOSE 0 CRUD_NULL_FLAG 0;
              sent_bytes := []; received := closed; received_bytes := [] |}.
    destruct (Codec.res (parse_CrudResponse closed) =? 1) eqn:Hr2;
      split_pair H; subst r st';
      (split; [apply during_app; cbn [net with_net with_table];
               rewrite Hl0, Hl, <- app_assoc; reflexivity | ]);
      (split; [reflexivity | ]).
    + left. split; [apply is_failed; exact Hr2 | reflexivity].
    + right. split; [apply not_failed; exact Hr2 | reflexivity].
Qed.

(** X19. A [crud_format] that returns 0 has connected if needed, sent
    FORMAT and then the CREATE of the table object flagged as the priority
    object, all answered with success; [InitFlag] is set and, on a table of
    CRUD_MAX_TOTAL_FILES slots, every slot is empty (the response to the
    CREATE not carrying the READ code). *)
Theorem crud_format_success (st st' : State World) :
  full_size st ->
  crud_format st = (0, st') ->
  InitFlag st' <> 0
  /\ Forall (fun x => ~ failed x) (during st st')
  /\ exists (before : list Exchange) (format create : Exchange),
       during st st' = before ++ [format; create]
       /\ sent format = convert_to_CrudRequest 0 CRUD_FORMAT 0 CRUD_NULL_FLAG 0
       /\ sent create
          = convert_to_CrudRequest 0 CRUD_CREATE table_size CRUD_PRIORITY_OBJECT 0
       /\ (Codec.req (parse_CrudResponse (received create)) <> CRUD_READ ->
           crud_file_table st' = repeat vacant (Z.to_nat CRUD_MAX_TOTAL_FILES)).
Proof.
  intros Hsize H. unfold crud_format in H.
  destruct (initialize st) as [ok st0] eqn:Hi.
  assert (Hsize0 := initialize_full_size _ _ _ Hi Hsize).
  apply initialize_spec in Hi. destruct Hi as (Ht & xs0 & Hl & _ & Hok).
  destruct ok; cbn [negb] in H; [ | split_pair H; discriminate H].
  destruct (Hok eq_refl) as (Hflag & Hgood & _). clear Hok.
  next_exchange H formatted u n1 Hx1.
  destruct (Codec.res (parse_CrudResponse formatted) =? 1) eqn:Hr1;
    [split_pair H; discriminate H | ].
  cbn [crud_file_table net with_net with_table] in H.
  rewrite (clear_slots_full st0 Hsize0) in H.
  next_exchange H created tbl n2 Hx2.
  destruct (Codec.res (parse_CrudResponse created) =? 1) eqn:Hr2;
    [split_pair H; discriminate H | ].
  split_pair H.
  assert (Hd : during st st'
               = xs0 ++ [ {| sent := convert_to_CrudRequest 0 CRUD_FORMAT 0
                                       CRUD_NULL_FLAG 0;
                             sent_bytes := []; received := formatted;
                             received_bytes := [] |};
                          {| sent := convert_to_CrudRequest 0 CRUD_CREATE table_size
                                       CRUD_PRIORITY_OBJECT 0;
                             sent_bytes := []; received := created;
                             received_bytes := [] |} ]).
  { apply during_app. rewrite <- H0. cbn [net with_net with_table].
    rewrite Hl1, Hl0, Hl. rewrite <- !app_assoc. reflexivity. }
  subst st'. cbn [InitFlag crud_file_table with_net with_table].
  split; [exact Hflag | ].
  rewrite Hd. split.
  - apply Forall_app. split; [exact Hgood | ].
    constructor; [apply not_failed; exact Hr1 | ].
    constructor; [apply not_failed; exact Hr2 | constructor].
  - exists xs0. eexists. eexists. split; [reflexivity | ].
    split; [reflexivity | ]. split; [reflexivity | ].
    cbn [received]. intros Hreq. apply exchange_buffer in Hx2.
    destruct Hx2 as [Hsame | [Hread _]]; [exact Hsame | contradiction].
Qed.

(** A request whose code is not CRUD_INIT is sent and answered on the
    socket as it is: no connection is made. *)
Lemma crud_client_operation_connected (k : buf_kind) (op : CrudRequest)
    (buf : buffer k) (w : World) :
  uint8 (Z.land (Z.shiftr (uint64 op) 28) 15) <> CRUD_INIT ->
  crud_client_operation op buf w
  = let '(response, buf', w') := crud_receive buf (snd (crud_send op buf w)) in
    (response, buf',
     if uint8 (Z.land (Z.shiftr (uint64 op) 28) 15) =? CRUD_CLOSE
     then sock_close w' else w').
Proof.
  intros Hreq. unfold crud_client_operation. cbv zeta.
  replace (uint8 (Z.land (Z.shiftr (uint64 op) 28) 15) =? CRUD_INIT) with false
    by (symmetry; apply Z.eqb_neq; exact Hreq).
  cbn [negb]. unfold crud_send. cbv zeta. cbn [snd].
  change (negb (0 =? 0)) with false. cbv iota. reflexivity.
Qed.

(** X20. [crud_mount], once connected, sends one READ of the table object
    and returns 0 or the error value as the response reports success or
    failure.  The table is loaded by the client below, which looks at the
    operation code of the response and not at its result: when the
    response carries READ the slots come from the socket, even if
    [crud_mount] then reports failure, and otherwise the table is kept.
    (The READ code, cut to 4 bits, is taken not to be the CRUD_INIT code.) *)
Theorem crud_mount_loads (st st' : State World) (r : Z) :
  InitFlag st <> 0 ->
  CRUD_READ mod 2 ^ 4 <> CRUD_INIT ->
  crud_mount st = (r, st') ->
  exists read : Exchange,
    during st st' = [read]
    /\ sent read = convert_to_CrudRequest 0 CRUD_READ table_size CRUD_PRIORITY_OBJECT 0
    /\ ((failed read /\ r = 65535) \/ (~ failed read /\ r = 0))
    /\ (Codec.req (parse_CrudResponse (received read)) <> CRUD_READ ->
        crud_file_table st' = crud_file_table st)
    /\ (Codec.req (parse_CrudResponse (received read)) = CRUD_READ ->
        exists w : World,
          crud_file_table st'
          = overlay
              (fst (sock_read_buf TableBuf
                      (Codec.length (parse_CrudResponse (received read))) w))
              (crud_file_table st)).
Proof.
  intros Hflag Hcode H. unfold crud_mount in H.
  rewrite (initialize_connected st Hflag) in H. cbn [negb] in H.
  next_exchange H readResponse tbl n1 Hx1.
  exists {| sent := convert_to_CrudRequest 0 CRUD_READ table_size CRUD_PRIORITY_OBJECT 0;
            sent_bytes := []; received := readResponse; received_bytes := [] |}.
  cbn [sent received].
  assert (Htbl : (Codec.req (parse_CrudResponse readResponse) <> CRUD_READ ->
                  tbl = crud_file_table st)
                 /\ (Codec.req (parse_CrudResponse readResponse) = CRUD_READ ->
                     exists w : World,
                       tbl = overlay
                               (fst (sock_read_buf TableBuf
                                       (Codec.length (parse_CrudResponse readResponse)) w))
                               (crud_file_table st))).
  { unfold exchange in Hx1. rewrite crud_client_operation_connected in Hx1.
    - unfold crud_receive in Hx1.
      destruct (sock_read_response _) as [response w1].
      rewrite response_req, response_length in Hx1.
      destruct (Codec.req (parse_CrudResponse response) =? CRUD_READ) eqn:Hreq.
      + destruct (sock_read_buf TableBuf _ w1) as [data w2] eqn:Hdata.
        split_pair Hx1. subst readResponse tbl. apply Z.eqb_eq in Hreq.
        split; [intros Hne; contradiction | ]. intros _. exists w1.
        rewrite Hdata. reflexivity.
      + split_pair Hx1. subst readResponse tbl. apply Z.eqb_neq in Hreq.
        split; [intros _; reflexivity | intros Heq; contradiction].
    - rewrite response_req. unfold parse_CrudResponse, convert_to_CrudRequest.
      rewrite parse_convert. cbn [Codec.req]. unfold uint8.
      rewrite Z.mod_small; [exact Hcode | ].
      pose proof (Z.mod_pos_bound CRUD_READ (2 ^ 4)). lia. }
  destruct (Codec.res (parse_CrudResponse readResponse) =? 1) eqn:Hr1;
    split_pair H; subst r st'; cbn [crud_file_table with_net with_table];
    (split; [apply during_app; cbn [net with_net with_table]; exact Hl | ]);
    (split; [reflexivity | ]).
  - split; [left; split; [apply is_failed; exact Hr1 | reflexivity] | exact Htbl].
  - split; [right; split; [apply not_failed; exact Hr1 | reflexivity] | exact Htbl].
Qed.

End Volume.

(** ** Names *)

Section Names.

Import FileIO.

Context {World : Type} {platform : Platform World} {config : Config}.

(** The table a [crud_open] leaves: the old one, or the old one with one
    slot replaced, which keeps its name or, having had none, takes a name
    that no slot carried. *)
Lemma crud_open_shape (path : string) (st st' : State World) (r : Z) :
  full_size st ->
  crud_open path st = Returns (r, st') ->
  crud_file_table st' = crud_file_table st
  \/ exists pre e e' post,
       crud_file_table st = pre ++ e :: post
       /\ crud_file_table st' = pre ++ e' :: post
       /\ (filename e' = filename e
           \/ (filename e = ""%string /\ filename e' = path
               /\ Forall (fun x => filename x <> path) (crud_file_table st))).
Proof.
  intros Hsize H. unfold crud_open in H.
  destruct (initialize st) as [ok st0] eqn:Hi.
  apply initialize_spec in Hi. destruct Hi as [Ht _].
  assert (Hsize0 : Z.of_nat (List.length (crud_file_table st0)) = CRUD_MAX_TOTAL_FILES)
    by (rewrite Ht; exact Hsize).
  destruct ok; cbn [negb] in H; [ | returned H; subst; left; exact Ht].
  destruct (_ || _); [returned H; subst; left; exact Ht | ].
  destruct (find_name path (crud_file_table st0) 0) as [found | i] eqn:Hfind;
    [ | discriminate H].
  destruct (find_name_inv path _ 0 found Hfind ltac:(lia))
    as [[Hfull Hall] | (Hlow & pre & e & post & Htbl & Hfound & Hpre & He)].
  - subst found. rewrite Z.eqb_refl in H.
    destruct (find_vacant (crud_file_table st0) 0) as [free | i] eqn:Hvac;
      [ | discriminate H].
    destruct (find_vacant_inv _ 0 free Hvac) as (pre & e & post & Htbl & Hfree & Hpre & He).
    destruct (free =? CRUD_MAX_TOTAL_FILES); [returned H; subst; left; exact Ht | ].
    returned H. cbn [Z.add] in Hfree. subst free st'.
    cbn [crud_file_table with_table]. rewrite Htbl, set_slot_middle.
    right. exists pre, e. eexists. exists post.
    split; [rewrite <- Ht; exact Htbl | ]. split; [reflexivity | ].
    right. split; [exact He | ]. split; [reflexivity | ].
    rewrite <- Ht. apply Hall. lia.
  - replace (found =? CRUD_MAX_TOTAL_FILES) with false in H
      by (symmetry; apply Z.eqb_neq; lia).
    cbn [Z.add] in Hfound. subst found. rewrite Htbl, slot_middle in H.
    destruct (open e =? 1); [returned H; subst; left; exact Ht | ].
    returned H. subst st'. cbn [crud_file_table with_table].
    rewrite set_slot_middle. right. exists pre, e. eexists. exists post.
    split; [rewrite <- Ht; exact Htbl | ]. split; [reflexivity | ].
    left. reflexivity.
Qed.

Lemma slot_middle_other (pre post : list CrudFileAllocationType)
    (e e' : CrudFileAllocationType) (i : Z) :
  i <> Z.of_nat (List.length pre) ->
  slot (pre ++ e' :: post) i = slot (pre ++ e :: post) i.
Proof.
  intros Hne. rewrite <- (set_slot_middle pre post e e').
  apply slot_set_slot_other. exact Hne.
Qed.

Lemma slot_middle_inv (pre post : list CrudFileAllocationType)
    (e x : CrudFileAllocationType) (i : Z) :
  slot (pre ++ e :: post) i = Some x ->
  (i = Z.of_nat (List.length pre) /\ x = e)
  \/ (i <> Z.of_nat (List.length pre)).
Proof.
  intros H. destruct (Z.eq_dec i (Z.of_nat (List.length pre))) as [Heq | Hne].
  - left. split; [exact Heq | ]. subst i. rewrite slot_middle in H.
    injection H as H. symmetry. exact H.
  - right. exact Hne.
Qed.

Lemma slot_In (tbl : list CrudFileAllocationType) (i : Z) (e : CrudFileAllocationType) :
  slot tbl i = Some e -> In e tbl.
Proof.
  unfold slot. destruct (i <? 0); [discriminate | ]. apply nth_error_In.
Qed.

(** Replacing one slot of a table of distinct names by a slot of the same
    name, or an unnamed slot by one with a name the table does not have. *)
Lemma distinct_names_replace (pre post : list CrudFileAllocationType)
    (e e' : CrudFileAllocationType) (path : string) :
  distinct_names (pre ++ e :: post) ->
  (filename e' = filename e
   \/ (filename e = ""%string /\ filename e' = path
       /\ Forall (fun x => filename x <> path) (pre ++ e :: post))) ->
  distinct_names (pre ++ e' :: post).
Proof.
  intros Hd Hname i j ei ej Hi Hj Heq Hne.
  destruct (slot_middle_inv pre post e' ei i Hi) as [[Hi0 Hei] | Hin];
    destruct (slot_middle_inv pre post e' ej j Hj) as [[Hj0 Hej] | Hjn].
  - lia.
  - rewrite (slot_middle_other pre post e e' j Hjn) in Hj. subst ei i.
    destruct Hname as [Hsame | (Hempty & Hpath & Hall)].
    + apply (Hd _ _ e ej (slot_middle pre post e) Hj); congruence.
    + exfalso. rewrite Forall_forall in Hall.
      apply (Hall ej (slot_In _ _ _ Hj)). congruence.
  - rewrite (slot_middle_other pre post e e' i Hin) in Hi. subst ej j.
    destruct Hname as [Hsame | (Hempty & Hpath & Hall)].
    + apply (Hd _ _ ei e Hi (slot_middle pre post e)); congruence.
    + exfalso. rewrite Forall_forall in Hall.
      apply (Hall ei (slot_In _ _ _ Hi)). congruence.
  - rewrite (slot_middle_other pre post e e' i Hin) in Hi.
    rewrite (slot_middle_other pre post e e' j Hjn) in Hj.
    exact (Hd i j ei ej Hi Hj Heq Hne).
Qed.

(** A call that keeps the name of every slot keeps the names distinct. *)
Lemma distinct_names_kept (tbl tbl' : list CrudFileAllocationType) (fd : Z) :
  (forall i e', slot tbl' i = Some e' ->
     exists e, slot tbl i = Some e /\ filename e = filename e' /\ (i <> fd -> e' = e)) ->
  distinct_names tbl -> distinct_names tbl'.
Proof.
  intros Hkeep Hd i j ei ej Hi Hj Heq Hne.
  destruct (Hkeep i ei Hi) as (ei0 & Hi0 & Hni & _).
  destruct (Hkeep j ej Hj) as (ej0 & Hj0 & Hnj & _).
  apply (Hd i j ei0 ej0 Hi0 Hj0); congruence.
Qed.

(** X21. File names stay distinct: on a table of CRUD_MAX_TOTAL_FILES slots
    in which no two slots carry the same non-empty name, every call of
    open, close, read, write and seek that returns leaves such a table;
    [crud_open] gives a slot a name only when no slot carries it. *)
Theorem names_stay_distinct (c : Call) (st st' : State World) (r : Z) :
  file_call c = true ->
  full_size st ->
  distinct_names (crud_file_table st) ->
  perform c st = Returns (r, st') ->
  distinct_names (crud_file_table st').
Proof.
  intros Hc Hsize Hd H.
  destruct c; cbn [file_call] in Hc; try discriminate Hc; cbn [perform] in H.
  - destruct (crud_open_shape path st st' r Hsize H)
      as [Hsame | (pre & e & e' & post & Ht & Ht' & Hname)].
    + rewrite Hsame. exact Hd.
    + rewrite Ht'. rewrite Ht in Hd, Hname.
      exact (distinct_names_replace pre post e e' path Hd Hname).
  - apply (distinct_names_kept (crud_file_table st) _ fh); [ | exact Hd].
    unfold crud_close in H. destruct (initialize st) as [ok st0] eqn:Hi.
    apply initialize_spec in Hi. destruct Hi as [Ht _].
    walk H; try discriminate H; returned H; subst r st'; branch_frame Ht.
  - apply (distinct_names_kept (crud_file_table st) _ fd); [ | exact Hd].
    destruct (crud_read fd buf count st) as [[[r0 buf'] st1] | i] eqn:Hr;
      [ | discriminate H].
    returned H. subst r0 st1. unfold crud_read in Hr.
    destruct (initialize st) as [ok st0] eqn:Hi.
    apply initialize_spec in Hi. destruct Hi as [Ht _].
    walk Hr; try discriminate Hr; returned Hr; subst r st'; branch_frame Ht.
  - apply (distinct_names_kept (crud_file_table st) _ fd); [ | exact Hd].
    unfold crud_write in H. destruct (initialize st) as [ok st0] eqn:Hi.
    apply initialize_spec in Hi. destruct Hi as [Ht _].
    destruct buf as [buf | ];
      walk H; try discriminate H; returned H; subst r st'; branch_frame Ht.
  - apply (distinct_names_kept (crud_file_table st) _ fd); [ | exact Hd].
    unfold crud_seek in H. destruct (initialize st) as [ok st0] eqn:Hi.
    apply initialize_spec in Hi. destruct Hi as [Ht _].
    walk H; try discriminate H; returned H; subst r st'; branch_frame Ht.
Qed.

(** X22. The client and the caller's buffer, for a request other than
    CRUD_INIT (which connects first): the response returned is the one read
    from the socket once the request is sent; the block is left as it was
    unless that response carries the READ code; and when it does, the bytes
    read from the socket for the length field of the response, when they
    fit the block, are at its start, with the rest of the block kept. *)
Theorem crud_client_operation_bytes (op : CrudRequest) (buf buf' : list byte)
    (w w' : World) (r : CrudResponse) :
  Codec.req (parse_CrudResponse op) <> CRUD_INIT ->
  crud_client_operation (k := ByteBuf) op buf w = (r, buf', w') ->
  let answered := sock_read_response (snd (crud_send (k := ByteBuf) op buf w)) in
  let data :=
    fst (sock_read_buf ByteBuf (Codec.length (parse_CrudResponse r)) (snd answered)) in
  r = fst answered
  /\ (Codec.req (parse_CrudResponse r) <> CRUD_READ -> buf' = buf)
  /\ (Codec.req (parse_CrudResponse r) = CRUD_READ ->
      (List.length data <= List.length buf)%nat ->
      buf' = data ++ skipn (List.length data) buf).
Proof.
  intros Hop H answered data. subst data answered.
  unfold crud_client_operation in H.
  rewrite response_req in H.
  replace (uint8 (Codec.req (parse_CrudResponse op)))
    with (Codec.req (parse_CrudResponse op)) in H
    by (unfold parse_CrudResponse, Codec.parse_CrudResponse; cbn [Codec.req];
        unfold uint8; rewrite Z.mod_mod by lia; reflexivity).
  replace (Codec.req (parse_CrudResponse op) =? CRUD_INIT) with false in H
    by (symmetry; apply Z.eqb_neq; exact Hop).
  cbn [negb] in H.
  destruct (crud_send (k := ByteBuf) op buf w) as [status ws] eqn:Hs.
  assert (Hstatus : status = 0).
  { unfold crud_send in Hs. cbv zeta in Hs. split_pair Hs. symmetry. assumption. }
  subst status. change (negb (0 =? 0)) with false in H. cbv iota in H.
  cbn [snd]. unfold crud_receive in H.
  destruct (sock_read_response ws) as [response w1].
  cbv zeta in H. rewrite response_req, response_length in H. cbn [fst snd].
  destruct (Codec.req (parse_CrudResponse response) =? CRUD_READ) eqn:Hreq.
  - apply Z.eqb_eq in Hreq.
    destruct (sock_read_buf ByteBuf (Codec.length (parse_CrudResponse response)) w1)
      as [data w2] eqn:Hdata.
    split_pair H. subst r buf'. split; [reflexivity | ].
    split; [intros Hne; contradiction | ].
    intros _. rewrite Hdata. cbn [fst store_buf]. intros Hfit.
    unfold overlay. apply firstn_all2.
    rewrite length_app, length_skipn. lia.
  - apply Z.eqb_neq in Hreq. split_pair H. subst r buf'.
    split; [reflexivity | ]. split; [intros _; reflexivity | ].
    intros Hread. contradiction.
Qed.

End Names.

(** ** Further concrete runs *)

Section MoreRuns.

Import FileIO.

(** A server that cannot be reached: an open gives -1 and touches nothing. *)
Lemma unreachable_server_witness :
  let st := {| InitFlag := 0; crud_file_table := [vacant; vacant];
               net := {| socket := {| Demo.reachable := false; Demo.script := [];
                                      Demo.current := Demo.quiet |};
                         issued := [] |} |} in
  exists (st' : State Demo.Wire) (x : Exchange),
    perform (platform := Demo.platform) (config := Demo.config) (Open "a") st
    = Returns (-1, st')
    /\ InitFlag st' = 0
    /\ crud_file_table st' = crud_file_table st
    /\ socket (net st') = snd (sock_connect (Platform := Demo.platform) (socket (net st)))
    /\ during st st' = [x]
    /\ received x = uint64 (-1).
Proof.
  intros st.
  apply (unreachable_server (platform := Demo.platform) (config := Demo.config)
           (Open "a") st).
  - reflexivity.
  - vm_compute. split; [discriminate | reflexivity].
  - reflexivity.
  - discriminate.
Defined.

(** The flag survives an unmount. *)
Lemma InitFlag_stays_set_witness :
  let st := Demo.state 1 [Demo.file "a" 0 0 0 0; vacant] [] in
  let st' :=
    match session (platform := Demo.platform) (config := Demo.config)
            [Open "a"; Unmount; Open "b"] st with
    | Returns s => s
    | OutOfBounds _ => st
    end in
  InitFlag st' = InitFlag st
  /\ initialize (platform := Demo.platform) (config := Demo.config) st' = (true, st').
Proof.
  intros st st'.
  apply (InitFlag_stays_set (platform := Demo.platform) (config := Demo.config)
           [Open "a"; Unmount; Open "b"] st st').
  - discriminate.
  - vm_compute. reflexivity.
Defined.

Lemma local_calls_make_no_request_witness :
  let st' := Demo.after (perform (platform := Demo.platform) (config := Demo.config)
                           (Seek 0 4) Demo.updating) Demo.updating in
  net st' = net Demo.updating /\ InitFlag st' = InitFlag Demo.updating.
Proof.
  intros st'.
  apply (local_calls_make_no_request (platform := Demo.platform) (config := Demo.config)
           (Seek 0 4) Demo.updating st' 0).
  - discriminate.
  - exact I.
  - vm_compute. reflexivity.
Defined.

(** "c" goes to slot 1, the first empty one. *)
Lemma crud_open_new_file_witness :
  let st := Demo.state 1 [Demo.file "a" 0 0 0 0; vacant] [] in
  Demo.crud_open "c" st
  = Returns (1, with_table st [Demo.file "a" 0 0 0 0; Demo.file "c" 0 0 0 1]).
Proof.
  intros st.
  apply (crud_open_new_file (platform := Demo.platform) (config := Demo.config)
           "c" st st [Demo.file "a" 0 0 0 0] [] vacant).
  - reflexivity.
  - vm_compute. split; [reflexivity | discriminate].
  - reflexivity.
  - vm_compute. discriminate.
  - reflexivity.
  - constructor; [discriminate | ]. constructor; [discriminate | constructor].
  - constructor; [discriminate | constructor].
  - reflexivity.
Defined.

(** "a", closed with object 7 of 4 bytes, is reopened at position 0. *)
Lemma crud_open_known_file_witness :
  let st := Demo.state 1 [Demo.file "a" 7 3 4 0; vacant] [] in
  Demo.crud_open "a" st
  = Returns (0, with_table st [Demo.file "a" 7 0 4 1; vacant]).
Proof.
  intros st.
  destruct (crud_open_known_file (platform := Demo.platform) (config := Demo.config)
              "a" st st [] [vacant] (Demo.file "a" 7 3 4 0)) as [_ Hclosed].
  - reflexivity.
  - vm_compute. split; [reflexivity | discriminate].
  - reflexivity.
  - constructor.
  - reflexivity.
  - vm_compute. split; [reflexivity | discriminate].
  - apply Hclosed. discriminate.
Defined.

Lemma crud_open_twice_witness :
  let st1 := Demo.after (Demo.crud_open "a" Demo.fresh) Demo.fresh in
  Demo.crud_open "a" st1 = Returns (-1, st1).
Proof.
  intros st1.
  destruct (crud_open_twice (platform := Demo.platform) (config := Demo.config)
              "a" Demo.fresh st1 0) as (_ & _ & Hagain).
  - reflexivity.
  - vm_compute. discriminate.
  - vm_compute. reflexivity.
  - discriminate.
  - exact Hagain.
Defined.

(** Handle 5 of a table of 2 slots. *)
Lemma rejected_before_any_request_witness :
  Demo.crud_write 5 (Some [x01]) 1 Demo.updating = Returns (-1, Demo.updating).
Proof.
  apply (rejected_before_any_request (platform := Demo.platform) (config := Demo.config)
           5 1 [] (Some [x01]) Demo.updating).
  - discriminate.
  - right. left. vm_compute. discriminate.
Defined.

(** Seeking to the end of a 4-byte file. *)
Lemma crud_seek_within_length_witness :
  crud_seek (platform := Demo.platform) (config := Demo.config) 0 4 Demo.updating
  = Returns (0, with_table Demo.updating [Demo.file "a" 7 4 4 1; vacant]).
Proof.
  destruct (crud_seek_within_length (platform := Demo.platform) (config := Demo.config)
              0 4 Demo.updating (Demo.file "a" 7 1 4 1)) as [Hok _].
  - discriminate.
  - vm_compute. split; [discriminate | reflexivity].
  - reflexivity.
  - discriminate.
  - apply Hok. vm_compute. discriminate.
Defined.

Lemma crud_close_then_reopen_witness :
  crud_close (platform := Demo.platform) (config := Demo.config) 0 Demo.updating
  = Returns (0, with_table Demo.updating [Demo.file "a" 7 1 4 0; vacant])
  /\ Demo.crud_open "a" (with_table Demo.updating [Demo.file "a" 7 1 4 0; vacant])
     = Returns (0, with_table Demo.updating [Demo.file "a" 7 0 4 1; vacant]).
Proof.
  destruct (crud_close_then_reopen (platform := Demo.platform) (config := Demo.config)
              Demo.updating [] [vacant] (Demo.file "a" 7 1 4 1)) as [_ Hopen].
  - discriminate.
  - reflexivity.
  - vm_compute. split; [reflexivity | discriminate].
  - vm_compute. split; [reflexivity | discriminate].
  - constructor.
  - apply Hopen. discriminate.
Defined.

(** The first write of three bytes: the store answers object 5. *)
Lemma crud_write_creates_witness :
  let st := Demo.state 1 [Demo.file "a" 0 0 0 1; vacant] [Demo.ok 2 5 3 []] in
  slot (crud_file_table (Demo.after (Demo.crud_write 0 (Some [x01; x02; x03]) 3 st) st)) 0
  = Some (Demo.file "a" 5 3 3 1).
Proof.
  intros st.
  pose (st' := Demo.after (Demo.crud_write 0 (Some [x01; x02; x03]) 3 st) st).
  destruct (crud_write_creates (platform := Demo.platform) (config := Demo.config)
              0 3 [x01; x02; x03] st st' 3 (Demo.file "a" 0 0 0 1))
    as (_ & _ & before & create & Hd & _ & _ & Hslot).
  - reflexivity.
  - reflexivity.
  - vm_compute. reflexivity.
  - vm_compute. reflexivity.
  - discriminate.
  - unfold st' in Hslot, Hd. rewrite Hslot. vm_compute in Hd.
    destruct before as [ | x [ | y before]]; cbn in Hd; try discriminate Hd.
    injection Hd as Hd. subst create. vm_compute. reflexivity.
Defined.

(** Three bytes written at position 2 of a 4-byte object: the new object
    has 5 bytes and the entry names it. *)
Lemma crud_write_grows_witness :
  let st := Demo.state 1 [Demo.file "a" 7 2 4 1; vacant]
              [Demo.ok 3 7 4 [x0a; x0b; x0c; x0d]; Demo.ok 2 9 5 []; Demo.ok 5 7 0 []] in
  let st' := Demo.after (Demo.crud_write 0 (Some [x01; x02; x03]) 3 st) st in
  Demo.crud_write 0 (Some [x01; x02; x03]) 3 st = Returns (3, st')
  /\ slot (crud_file_table st') 1 = slot (crud_file_table st) 1.
Proof.
  intros st st'.
  destruct (crud_write_grows (platform := Demo.platform) (config := Demo.config)
              0 3 [x01; x02; x03] st st' 3 (Demo.file "a" 7 2 4 1))
    as (_ & Hother & _).
  - reflexivity.
  - discriminate.
  - vm_compute. split; discriminate.
  - vm_compute. split; reflexivity.
  - vm_compute. discriminate.
  - vm_compute. reflexivity.
  - discriminate.
  - split; [vm_compute; reflexivity | apply Hother; discriminate].
Defined.

(** The short read again: slot 0 keeps name, object, length and flag. *)
Lemma crud_read_frame_witness :
  exists e, slot (crud_file_table Demo.reading) 0 = Some e
    /\ (filename e = "a"%string /\ object_id e = 7 /\ length e = 10 /\ open e = 1)
    /\ (0 <> 0 -> Demo.file "a" 7 10 10 1 = e).
Proof.
  pose (st' := Demo.after
                 (perform (platform := Demo.platform) (config := Demo.config)
                    (Read 0 [x00; x00; x00; x00] 100) Demo.reading) Demo.reading).
  refine (proj1 (crud_read_frame (platform := Demo.platform) (config := Demo.config)
                   0 100 [x00; x00; x00; x00] [x08; x09; x00; x00] Demo.reading st' 2 _)
            0 (Demo.file "a" 7 10 10 1) _).
  - vm_compute. reflexivity.
  - vm_compute. reflexivity.
Defined.

(** The in-place write again: slot 1 is untouched. *)
Lemma crud_write_frame_witness :
  exists e, slot (crud_file_table Demo.updating) 1 = Some e
    /\ (filename e = ""%string /\ open e = 0)
    /\ (1 <> 0 -> vacant = e).
Proof.
  pose (st' := Demo.after (Demo.crud_write 0 (Some [x01; x02]) 2 Demo.updating)
                 Demo.updating).
  refine (crud_write_frame (platform := Demo.platform) (config := Demo.config)
            0 2 (Some [x01; x02]) Demo.updating st' 2 _ 1 vacant _).
  - vm_compute. reflexivity.
  - vm_compute. reflexivity.
Defined.

(** The UPDATE of the table refused: one request, no CLOSE. *)
Lemma crud_unmount_sequence_witness :
  let st := Demo.state 1 [Demo.file "a" 7 0 4 0; vacant] [Demo.ko 4] in
  exists update : Exchange,
    sent update
    = convert_to_CrudRequest 0 4 (2 * 144) 1 0
    /\ ((failed update /\ during st (snd (Demo.crud_unmount st)) = [update]
         /\ fst (Demo.crud_unmount st) = 65535)
        \/ (~ failed update
            /\ exists close : Exchange,
                 during st (snd (Demo.crud_unmount st)) = [update; close]
                 /\ sent close = convert_to_CrudRequest 0 6 0 0 0
                 /\ ((failed close /\ fst (Demo.crud_unmount st) = 65535)
                     \/ (~ failed close /\ fst (Demo.crud_unmount st) = 0)))).
Proof.
  intros st.
  apply (crud_unmount_sequence (platform := Demo.platform) (config := Demo.config)
           st (snd (Demo.crud_unmount st)) (fst (Demo.crud_unmount st))).
  - discriminate.
  - vm_compute. reflexivity.
Defined.

(** A format the store accepts: both slots are empty afterwards. *)
Lemma crud_format_success_witness :
  let st := Demo.state 1 [Demo.file "a" 7 2 4 1; vacant]
              [Demo.ok 1 0 0 []; Demo.ok 2 0 0 []] in
  InitFlag (snd (Demo.crud_format st)) <> 0
  /\ Forall (fun x => ~ failed x) (during st (snd (Demo.crud_format st))).
Proof.
  intros st.
  destruct (crud_format_success (platform := Demo.platform) (config := Demo.config)
              st (snd (Demo.crud_format st))) as (Hflag & Hgood & _).
  - reflexivity.
  - vm_compute. reflexivity.
  - split; [exact Hflag | exact Hgood].
Defined.

(** A mount that loads the table the store sends. *)
Lemma crud_mount_loads_witness :
  let sent_table := [Demo.file "a" 7 0 4 0; vacant] in
  let st := Demo.state 1 [vacant; vacant]
              [{| Demo.answer := Codec.convert_to_CrudRequest 0 3 288 1 0;
                  Demo.data := []; Demo.table := sent_table |}] in
  let st' := snd (crud_mount (platform := Demo.platform) (config := Demo.config) st) in
  exists read : Exchange,
    during st st' = [read]
    /\ sent read = convert_to_CrudRequest 0 3 (2 * 144) 1 0
    /\ ((failed read /\ 0 = 65535) \/ (~ failed read /\ 0 = 0))
    /\ (Codec.req (parse_CrudResponse (received read)) <> 3 ->
        crud_file_table st' = crud_file_table st)
    /\ (Codec.req (parse_CrudResponse (received read)) = 3 ->
        exists w : Demo.Wire,
          crud_file_table st'
          = overlay
              (fst (sock_read_buf (Platform := Demo.platform) TableBuf
                      (Codec.length (parse_CrudResponse (received read))) w))
              (crud_file_table st)).
Proof.
  intros sent_table st st'.
  apply (crud_mount_loads (platform := Demo.platform) (config := Demo.config) st st' 0).
  - discriminate.
  - vm_compute. discriminate.
  - vm_compute. reflexivity.
Defined.

Lemma names_stay_distinct_witness :
  let st := Demo.state 1 [Demo.file "a" 0 0 0 0; vacant] [] in
  distinct_names (crud_file_table (Demo.after (Demo.crud_open "c" st) st)).
Proof.
  intros st.
  apply (names_stay_distinct (platform := Demo.platform) (config := Demo.config)
           (Open "c") st (Demo.after (Demo.crud_open "c" st) st) 1).
  - reflexivity.
  - reflexivity.
  - intros i j ei ej Hi Hj Heq Hne.
    assert (Hcase : forall k e, slot (crud_file_table st) k = Some e ->
                      (k = 0 /\ e = Demo.file "a" 0 0 0 0) \/ (k = 1 /\ e = vacant)).
    { intros k e Hk. unfold slot in Hk. destruct (k <? 0) eqn:Hneg; [discriminate Hk | ].
      apply Z.ltb_ge in Hneg. cbn [crud_file_table st Demo.state] in Hk.
      destruct (Z.to_nat k) as [ | [ | n]] eqn:Hn; cbn in Hk.
      - left. split; [lia | congruence].
      - right. split; [lia | congruence].
      - destruct n; discriminate Hk. }
    destruct (Hcase i ei Hi) as [[Hi0 Hei] | [Hi1 Hei]];
      destruct (Hcase j ej Hj) as [[Hj0 Hej] | [Hj1 Hej]]; subst; try lia.
    + discriminate Heq.
    + exfalso. apply Hne. reflexivity.
  - vm_compute. reflexivity.
Defined.

(** A READ answered with two bytes over a block of four. *)
Lemma crud_client_operation_bytes_witness :
  let w := Demo.wire [Demo.ok 3 7 2 [x0a; x0b]] in
  let request := convert_to_CrudRequest 7 3 4 0 0 in
  let buf' := snd (fst (crud_client_operation (platform := Demo.platform)
                          (config := Demo.config) (k := ByteBuf)
                          request [x01; x02; x03; x04] w)) in
  buf' = [x0a; x0b; x03; x04].
Proof.
  intros w request buf'.
  pose (out := crud_client_operation (platform := Demo.platform)
                 (config := Demo.config) (k := ByteBuf) request [x01; x02; x03; x04] w).
  destruct (crud_client_operation_bytes (platform := Demo.platform)
              (config := Demo.config) request [x01; x02; x03; x04] buf'
              w (snd out) (fst (fst out))) as (_ & _ & Hread).
  - vm_compute. discriminate.
  - vm_compute. reflexivity.
  - rewrite Hread.
    + vm_compute. reflexivity.
    + vm_compute. reflexivity.
    + vm_compute. lia.
Defined.

End MoreRuns.
